(** * Solarview: synchronisation engine and heatmap projection

    A shallow embedding of [solarview.py]: the Growatt client, the per-year
    pickle cache, [GrowattServerData] (the sync engine) and the drawing
    code of [SolarviewApp] that turns a year of samples into line
    commands.  Definitions come first, statements about them after. *)

From Stdlib Require Import ZArith List Ascii String Floats.SpecFloat Lia.
From Stdlib Require Floats.FloatAxioms Cyclic.Int63.Uint63.
From stdpp Require Import gmap strings list fin_maps sorting pretty.

Local Open Scope Z_scope.

(** ** Python numbers

    A Python [float] is an IEEE binary64 value; [spec_float] with
    [prec = 53] and [emax = 1024] is exactly that (one NaN, signed zeros and
    infinities).  An [int] is unbounded.  Mixed comparisons are exact in
    Python, mixed arithmetic converts the [int] operand first. *)

Module Py.

Definition prec : Z := 53.
Definition emax : Z := 1024.

Definition inf : spec_float := S754_infinity false.
Definition nan : spec_float := S754_nan.

(** [float(z)] for an [int] [z], rounded to nearest even (an [int] too
    large for a float gives an infinity here, [OverflowError] in Python). *)
Definition float_of_int (z : Z) : spec_float :=
  binary_normalize prec emax z 0 false.

Inductive num :=
| Int (z : Z)
| Float (f : spec_float).

Definition to_float (a : num) : spec_float :=
  match a with
  | Int z => float_of_int z
  | Float f => f
  end.

(** Exact comparison of a float with an integer: [s m 2^e ? z]. *)
Definition cmp_float_int (f : spec_float) (z : Z) : option comparison :=
  match f with
  | S754_nan => None
  | S754_infinity s => Some (if s then Lt else Gt)
  | S754_zero _ => Some (0 ?= z)
  | S754_finite s m e =>
      let sm := if s then Z.neg m else Z.pos m in
      Some (if 0 <=? e then (sm * 2 ^ e ?= z) else (sm ?= z * 2 ^ (- e)))
  end.

Definition cmp (a b : num) : option comparison :=
  match a, b with
  | Int x, Int y => Some (x ?= y)
  | Float f, Float g => SFcompare f g
  | Float f, Int y => cmp_float_int f y
  | Int x, Float g => option_map CompOpp (cmp_float_int g x)
  end.

(** [a <= b], [a < b], [a > b]; every comparison with NaN is [False]. *)
Definition le (a b : num) : bool :=
  match cmp a b with
  | Some (Lt | Eq) => true
  | _ => false
  end.

Definition lt (a b : num) : bool :=
  match cmp a b with
  | Some Lt => true
  | _ => false
  end.

Definition gt (a b : num) : bool := lt b a.




(** True division [a / b]: always a float, [None] is [ZeroDivisionError].
    Integer operands are converted first, which gives Python's correctly
    rounded quotient as long as both are below [2^53] in magnitude. *)
Definition truediv (a b : num) : option num :=
  match b with
  | Int 0 | Float (S754_zero _) => None
  | _ => Some (Float (SFdiv prec emax (to_float a) (to_float b)))
  end.

(** [round(f)]: to the nearest integer, a tie to the even one; [None]
    for NaN and infinities. *)
Definition round_of_float (f : spec_float) : option Z :=
  match f with
  | S754_zero _ => Some 0
  | S754_finite s m e =>
      let q :=
        if 0 <=? e then Z.shiftl (Z.pos m) e
        else
          let whole := Z.shiftr (Z.pos m) (- e) in
          let rest := Z.pos m - Z.shiftl whole (- e) in
          let half := Z.shiftl 1 (- e - 1) in
          if (half <? rest) || ((half =? rest) && Z.odd whole)
          then whole + 1 else whole in
      Some (if s then - q else q)
  | _ => None
  end.

(** [int(f)]: truncation toward zero, that is, the magnitude [m 2^e]
    without its fractional bits; [None] for NaN and infinities. *)
Definition int_of_float (f : spec_float) : option Z :=
  match f with
  | S754_zero _ => Some 0
  | S754_finite s m e =>
      let q := if 0 <=? e then Z.shiftl (Z.pos m) e else Z.shiftr (Z.pos m) (- e) in
      Some (if s then - q else q)
  | _ => None
  end.

End Py.

(** ** Projection: layout constants and the colour table *)

Record Projection := {
  height : Z;
  topmargin : Z;
  bottommargin : Z;
  leftmargin : Z;
  rightmargin : Z;
  linewidth : Z;
  pixels_per_day : Z;
  width : Z;
  pixels_per_kwh : Z;
  pixels_per_hour : Z;
  fiveoclockbase : Z;
  power_to_color_table : list (Py.num * string)
}.

Definition Projection_init : Projection :=
  let height := 800 in
  let topmargin := 50 in
  let bottommargin := 50 in
  let leftmargin := 50 in
  let rightmargin := 50 in
  let linewidth := 2 in
  let pixels_per_kwh := 6 in
  {| height := height;
     topmargin := topmargin;
     bottommargin := bottommargin;
     leftmargin := leftmargin;
     rightmargin := rightmargin;
     linewidth := linewidth;
     pixels_per_day := linewidth + 1;
     width := (linewidth + 1) * 365 + leftmargin + rightmargin;
     pixels_per_kwh := pixels_per_kwh;
     pixels_per_hour := 30;
     fiveoclockbase := height - bottommargin - 35 * pixels_per_kwh;
     power_to_color_table :=
       [ (Py.Int 0, "#C0C0C0");
         (Py.Int 500, "#87CEFA");
         (Py.Int 1000, "#00FF00");
         (Py.Int 2000, "#FFFF00");
         (Py.Int 3000, "#FFA500");
         (Py.Int 4000, "#FF0000");
         (Py.Float Py.inf, "#B00000") ] |}.

(** The [for ... in self.power_to_color_table] loop of [power_to_color];
    falling off the end of the table returns [None]. *)
Fixpoint power_to_color_scan (table : list (Py.num * string)) (power : Py.num)
  : option string :=
  match table with
  | [] => None
  | (upperbound, color) :: rest =>
      if Py.le power upperbound then Some color
      else power_to_color_scan rest power
  end.

Definition power_to_color (self : Projection) (power : Py.num) : option string :=
  power_to_color_scan (power_to_color_table self) power.

(** A bucket is the first match for [power] when it sits at position [i],
    its bound is at least [power], and no earlier bound is. *)
Definition first_bucket (table : list (Py.num * string)) (power : Py.num)
    (color : string) : Prop :=
  ∃ (i : nat) (upperbound : Py.num),
    table !! i = Some (upperbound, color) ∧
    Py.le power upperbound = true ∧
    ∀ (j : nat) (b : Py.num) (c : string),
      (j < i)%nat → table !! j = Some (b, c) → Py.le power b = false.

(** Bounds of a table strictly increase from one row to the next. *)
Fixpoint ascending (table : list (Py.num * string)) : bool :=
  match table with
  | (b1, _) :: (((b2, _) :: _) as rest) => Py.lt b1 b2 && ascending rest
  | _ => true
  end.

(** ** Exceptions

    The classes the program raises or lets through.  [LoginError] derives
    from [GrowattApiError]; [isinstance] is the test an [except] clause
    performs. *)

Inductive exn :=
| GrowattApiError
| LoginError
| ConnectionError
| ValueError
| IndexError
| TypeError
| ZeroDivisionError
| UnicodeEncodeError
| AttributeError
| KeyError.

Definition isinstance (e cls : exn) : bool :=
  match cls, e with
  | GrowattApiError, (GrowattApiError | LoginError) => true
  | LoginError, LoginError => true
  | ConnectionError, ConnectionError => true
  | ValueError, (ValueError | UnicodeEncodeError) => true
  | IndexError, IndexError => true
  | TypeError, TypeError => true
  | ZeroDivisionError, ZeroDivisionError => true
  | UnicodeEncodeError, UnicodeEncodeError => true
  | AttributeError, AttributeError => true
  | KeyError, KeyError => true
  | _, _ => false
  end.

Inductive outcome (A : Type) :=
| Return (a : A)
| Raise (e : exn).
Arguments Return {A} a.
Arguments Raise {A} e.

(** ** Strings

    [str] values are byte strings here; the texts the program handles
    (dates, times, file names) are ASCII. *)

Module Str.

Definition chars : string → list ascii := String.list_ascii_of_string.
Definition of_chars : list ascii → string := String.string_of_list_ascii.

Definition is_digit (c : ascii) : bool :=
  let n := N_of_ascii c in ((48 <=? n) && (n <=? 57))%N.

Definition digit_val (c : ascii) : Z := Z.of_N (N_of_ascii c) - 48.

(** Whitespace that [str.strip()] and [int()] drop (ASCII range). *)
Definition is_space (c : ascii) : bool :=
  let n := N_of_ascii c in
  (((9 <=? n) && (n <=? 13)) || ((28 <=? n) && (n <=? 32)))%N.

(** [s.split(sep)] for a one-character separator. *)
Fixpoint split_go (sep : ascii) (cur : list ascii) (l : list ascii)
  : list (list ascii) :=
  match l with
  | [] => [rev cur]
  | c :: l' =>
      if Ascii.eqb c sep then rev cur :: split_go sep [] l'
      else split_go sep (c :: cur) l'
  end.

Definition split (sep : ascii) (s : string) : list string :=
  of_chars <$> split_go sep [] (chars s).

(** Right-align [s] in a field of [w] characters, filling with [fill]:
    the [{:4}] and [{:02}] of [str.format] on a non-negative [int]. *)
Definition rjust (fill : ascii) (w : nat) (s : string) : string :=
  of_chars (replicate (w - String.length s) fill) +:+ s.

(** [str(z)] *)
Definition of_int (z : Z) : string := pretty z.

(** [s.replace("????", new)] *)
Fixpoint replace_qqqq (new : string) (s : string) : string :=
  match s with
  | String "?" (String "?" (String "?" (String "?" rest))) =>
      new +:+ replace_qqqq new rest
  | String c rest => String c (replace_qqqq new rest)
  | EmptyString => EmptyString
  end.

Fixpoint drop_while (p : ascii → bool) (l : list ascii) : list ascii :=
  match l with
  | c :: l' => if p c then drop_while p l' else l
  | [] => []
  end.

(** Digits of an [int()] literal: groups of digits, one ["_"] allowed
    between two digits. *)
Fixpoint int_digits (acc : Z) (prev_digit : bool) (l : list ascii) : option Z :=
  match l with
  | [] => if prev_digit then Some acc else None
  | c :: l' =>
      if is_digit c then int_digits (10 * acc + digit_val c) true l'
      else if Ascii.eqb c "_" && prev_digit then
        match l' with
        | d :: _ => if is_digit d then int_digits acc false l' else None
        | [] => None
        end
      else None
  end.

(** [int(s)]: surrounding whitespace, an optional sign, decimal digits.
    [None] is [ValueError]. *)
Definition to_int (s : string) : option Z :=
  let body := rev (drop_while is_space (rev (drop_while is_space (chars s)))) in
  match body with
  | "-"%char :: ds => Z.opp <$> int_digits 0 false ds
  | "+"%char :: ds => int_digits 0 false ds
  | ds => int_digits 0 false ds
  end.

(** [max] of a collection of strings, [None] when it is empty. *)
Definition max_of (l : list string) : option string :=
  foldr (λ k acc,
           match acc with
           | None => Some k
           | Some m => Some (if String.ltb m k then k else m)
           end) None l.


End Str.

(** ** Dates

    [datetime] values: proleptic Gregorian day number ([toordinal]) and the
    time of day in microseconds.  The calendar arithmetic is that of
    Python's [datetime] module. *)

Module Date.

Record datetime := { ordinal : Z; microsecond_of_day : Z }.

Definition is_leap (y : Z) : bool :=
  (y mod 4 =? 0) && (negb (y mod 100 =? 0) || (y mod 400 =? 0)).

Definition days_in_month (y m : Z) : Z :=
  if m =? 2 then (if is_leap y then 29 else 28)
  else if (m =? 4) || (m =? 6) || (m =? 9) || (m =? 11) then 30
  else 31.

Definition days_before_year (y : Z) : Z :=
  let y1 := y - 1 in
  y1 * 365 + y1 / 4 - y1 / 100 + y1 / 400.

Fixpoint days_before_month_go (y : Z) (k : nat) : Z :=
  match k with
  | O => 0
  | S k' => days_before_month_go y k' + days_in_month y (Z.of_nat k)
  end.

Definition days_before_month (y m : Z) : Z :=
  days_before_month_go y (Z.to_nat (m - 1)).

Definition ymd2ord (y m d : Z) : Z :=
  days_before_year y + days_before_month y m + d.

Definition valid_ymd (y m d : Z) : bool :=
  (1 <=? y) && (y <=? 9999) && (1 <=? m) && (m <=? 12) &&
  (1 <=? d) && (d <=? days_in_month y m).

(** [dt.datetime(y, m, d)]; [None] is [ValueError]. *)
Definition make (y m d : Z) : option datetime :=
  if valid_ymd y m d
  then Some {| ordinal := ymd2ord y m d; microsecond_of_day := 0 |}
  else None.

Definition DI400Y : Z := 146097.
Definition DI100Y : Z := 36524.
Definition DI4Y : Z := 1461.

Definition ord2ymd (n0 : Z) : Z * Z * Z :=
  let n := n0 - 1 in
  let n400 := n / DI400Y in
  let n := n mod DI400Y in
  let n100 := n / DI100Y in
  let n := n mod DI100Y in
  let n4 := n / DI4Y in
  let n := n mod DI4Y in
  let n1 := n / 365 in
  let n := n mod 365 in
  let year := n400 * 400 + 1 + n100 * 100 + n4 * 4 + n1 in
  if (n1 =? 4) || (n100 =? 4) then (year - 1, 12, 31)
  else
    let month := Z.shiftr (n + 50) 5 in
    let preceding := days_before_month year month in
    if n <? preceding
    then (year, month - 1,
          n - (preceding - days_in_month year (month - 1)) + 1)
    else (year, month, n - preceding + 1).

Definition year (d : datetime) : Z := (ord2ymd (ordinal d)).1.1.
Definition month (d : datetime) : Z := (ord2ymd (ordinal d)).1.2.
Definition day (d : datetime) : Z := (ord2ymd (ordinal d)).2.

Definition us_per_day : Z := 86400 * 1000000.

(** [(a - b).days]: the timedelta is normalised, so this is a floor. *)
Definition diff_days (a b : datetime) : Z :=
  ((ordinal a - ordinal b) * us_per_day
   + (microsecond_of_day a - microsecond_of_day b)) / us_per_day.

(** [d + dt.timedelta(n)] *)
Definition add_days (d : datetime) (n : Z) : datetime :=
  {| ordinal := ordinal d + n; microsecond_of_day := microsecond_of_day d |}.

(** [d.strftime("%Y-%m-%d")], the year written with four digits. *)
Definition strftime_ymd (d : datetime) : string :=
  Str.rjust "0" 4 (Str.of_int (year d)) +:+ "-" +:+
  Str.rjust "0" 2 (Str.of_int (month d)) +:+ "-" +:+
  Str.rjust "0" 2 (Str.of_int (day d)).

(** [d.strftime("%Y-%m")] and [d.strftime("%Y")] *)
Definition strftime_ym (d : datetime) : string :=
  Str.rjust "0" 4 (Str.of_int (year d)) +:+ "-" +:+
  Str.rjust "0" 2 (Str.of_int (month d)).

Definition strftime_y (d : datetime) : string :=
  Str.rjust "0" 4 (Str.of_int (year d)).

(** The directives of [strptime]: [%Y] is four digits, [%m] is
    [1[0-2]|0[1-9]|[1-9]], [%d] is [3[01]|[12]\d|0[1-9]|[1-9]| [1-9]]. *)
Definition parse_Y (t : list ascii) : option Z :=
  match t with
  | [a; b; c; d] =>
      if Str.is_digit a && Str.is_digit b && Str.is_digit c && Str.is_digit d
      then Some (1000 * Str.digit_val a + 100 * Str.digit_val b
                 + 10 * Str.digit_val c + Str.digit_val d)
      else None
  | _ => None
  end.

Definition parse_m (t : list ascii) : option Z :=
  match t with
  | [a] => if Str.is_digit a && negb (Ascii.eqb a "0")
           then Some (Str.digit_val a) else None
  | [a; b] =>
      let v := 10 * Str.digit_val a + Str.digit_val b in
      if Str.is_digit a && Str.is_digit b && (1 <=? v) && (v <=? 12)
      then Some v else None
  | _ => None
  end.

Definition parse_d (t : list ascii) : option Z :=
  match t with
  | [a] => if Str.is_digit a && negb (Ascii.eqb a "0")
           then Some (Str.digit_val a) else None
  | [a; b] =>
      if Ascii.eqb a " " then
        (if Str.is_digit b && negb (Ascii.eqb b "0")
         then Some (Str.digit_val b) else None)
      else
        let v := 10 * Str.digit_val a + Str.digit_val b in
        if Str.is_digit a && Str.is_digit b && (1 <=? v) && (v <=? 31)
        then Some v else None
  | _ => None
  end.

(** [dt.datetime.strptime(s, "%Y-%m-%d")]; [None] is [ValueError]. *)
Definition strptime_ymd (s : string) : option datetime :=
  match Str.split_go "-" [] (Str.chars s) with
  | [ty; tm; td] =>
      y ← parse_Y ty; m ← parse_m tm; d ← parse_d td; make y m d
  | _ => None
  end.

End Date.

(** [daterange(start_date, end_date)]: both ends included. *)
Definition daterange (start_date end_date : Date.datetime) : list Date.datetime :=
  (λ n, Date.add_days start_date (Z.of_nat n))
    <$> seq 0 (Z.to_nat (Date.diff_days end_date start_date + 1)).

(** [isodate_diff(d1_str, d2_str)] *)
Definition isodate_diff (d1_str d2_str : string) : outcome Z :=
  match Date.strptime_ymd d1_str with
  | None => Raise ValueError
  | Some d1 =>
      match Date.strptime_ymd d2_str with
      | None => Raise ValueError
      | Some d2 => Return (Date.diff_days d1 d2)
      end
  end.




(** ** The password digest

    [hashlib.md5] (RFC 1321) on bytes, [str.encode("utf-8")] on code
    points, then [hash_password] itself. *)

Module Hashlib.

Definition add32 (a b : Z) : Z := (a + b) mod 2 ^ 32.
Definition not32 (a : Z) : Z := Z.lxor a 0xffffffff.
Definition rotl32 (x c : Z) : Z :=
  Z.lor (Z.shiftl x c mod 2 ^ 32) (Z.shiftr x (32 - c)).

Definition K : list Z :=
  [ 0xd76aa478; 0xe8c7b756; 0x242070db; 0xc1bdceee;
    0xf57c0faf; 0x4787c62a; 0xa8304613; 0xfd469501;
    0x698098d8; 0x8b44f7af; 0xffff5bb1; 0x895cd7be;
    0x6b901122; 0xfd987193; 0xa679438e; 0x49b40821;
    0xf61e2562; 0xc040b340; 0x265e5a51; 0xe9b6c7aa;
    0xd62f105d; 0x02441453; 0xd8a1e681; 0xe7d3fbc8;
    0x21e1cde6; 0xc33707d6; 0xf4d50d87; 0x455a14ed;
    0xa9e3e905; 0xfcefa3f8; 0x676f02d9; 0x8d2a4c8a;
    0xfffa3942; 0x8771f681; 0x6d9d6122; 0xfde5380c;
    0xa4beea44; 0x4bdecfa9; 0xf6bb4b60; 0xbebfbc70;
    0x289b7ec6; 0xeaa127fa; 0xd4ef3085; 0x04881d05;
    0xd9d4d039; 0xe6db99e5; 0x1fa27cf8; 0xc4ac5665;
    0xf4292244; 0x432aff97; 0xab9423a7; 0xfc93a039;
    0x655b59c3; 0x8f0ccc92; 0xffeff47d; 0x85845dd1;
    0x6fa87e4f; 0xfe2ce6e0; 0xa3014314; 0x4e0811a1;
    0xf7537e82; 0xbd3af235; 0x2ad7d2bb; 0xeb86d391 ].

Definition shifts : list Z :=
  [ 7; 12; 17; 22; 7; 12; 17; 22; 7; 12; 17; 22; 7; 12; 17; 22;
    5; 9; 14; 20; 5; 9; 14; 20; 5; 9; 14; 20; 5; 9; 14; 20;
    4; 11; 16; 23; 4; 11; 16; 23; 4; 11; 16; 23; 4; 11; 16; 23;
    6; 10; 15; 21; 6; 10; 15; 21; 6; 10; 15; 21; 6; 10; 15; 21 ].

Definition round_f (i b c d : Z) : Z :=
  if i <? 16 then Z.lor (Z.land b c) (Z.land (not32 b) d)
  else if i <? 32 then Z.lor (Z.land d b) (Z.land (not32 d) c)
  else if i <? 48 then Z.lxor b (Z.lxor c d)
  else Z.lxor c (Z.lor b (not32 d)).

Definition round_g (i : Z) : Z :=
  if i <? 16 then i
  else if i <? 32 then (5 * i + 1) mod 16
  else if i <? 48 then (3 * i + 5) mod 16
  else (7 * i) mod 16.

Definition nthZ (l : list Z) (i : Z) : Z := nth (Z.to_nat i) l 0.

Definition step (m : list Z) (st : Z * Z * Z * Z) (i : Z) : Z * Z * Z * Z :=
  let '(a, b, c, d) := st in
  let f := add32 (add32 (add32 (round_f i b c d) a) (nthZ K i))
                 (nthZ m (round_g i)) in
  (d, add32 b (rotl32 f (nthZ shifts i)), b, c).

(** Four bytes, least significant first, as one word. *)
Fixpoint words (n : nat) (bytes : list Z) : list Z :=
  match n with
  | O => []
  | S n' =>
      match bytes with
      | b0 :: b1 :: b2 :: b3 :: rest =>
          (b0 + 256 * b1 + 65536 * b2 + 16777216 * b3) :: words n' rest
      | _ => []
      end
  end.

Definition process (st : Z * Z * Z * Z) (chunk : list Z) : Z * Z * Z * Z :=
  let m := words 16 chunk in
  let '(a0, b0, c0, d0) := st in
  let '(a, b, c, d) := fold_left (step m) (Z.of_nat <$> seq 0 64) st in
  (add32 a0 a, add32 b0 b, add32 c0 c, add32 d0 d).

Fixpoint chunks (n : nat) (bytes : list Z) : list (list Z) :=
  match n with
  | O => []
  | S n' => take 64 bytes :: chunks n' (drop 64 bytes)
  end.

Definition le_bytes (count : nat) (v : Z) : list Z :=
  (λ k, Z.shiftr v (8 * Z.of_nat k) mod 256) <$> seq 0 count.

Definition pad (msg : list Z) : list Z :=
  let len := Z.of_nat (length msg) in
  msg ++ [0x80] ++ replicate (Z.to_nat ((55 - len) mod 64)) 0
      ++ le_bytes 8 ((8 * len) mod 2 ^ 64).

Definition md5_digest (msg : list Z) : list Z :=
  let padded := pad msg in
  let '(a, b, c, d) :=
    fold_left process (chunks (length padded / 64) padded)
              (0x67452301, 0xefcdab89, 0x98badcfe, 0x10325476) in
  le_bytes 4 a ++ le_bytes 4 b ++ le_bytes 4 c ++ le_bytes 4 d.

Definition hex_char (v : Z) : ascii :=
  ascii_of_N (Z.to_N (if v <? 10 then 48 + v else 87 + v)).

(** [hashlib.md5(msg).hexdigest()] *)
Definition md5_hexdigest (msg : list Z) : string :=
  Str.of_chars (mjoin ((λ b, [hex_char (b / 16); hex_char (b mod 16)])
                         <$> md5_digest msg)).

End Hashlib.

(** [password.encode("utf-8")] on the code points of [password]; [None] is
    [UnicodeEncodeError] (a surrogate). *)
Definition utf8_char (c : Z) : option (list Z) :=
  if (c <? 0) || (0x10FFFF <? c) then None
  else if c <? 0x80 then Some [c]
  else if c <? 0x800 then Some [0xC0 + c / 64; 0x80 + c mod 64]
  else if (0xD800 <=? c) && (c <=? 0xDFFF) then None
  else if c <? 0x10000 then
    Some [0xE0 + c / 4096; 0x80 + (c / 64) mod 64; 0x80 + c mod 64]
  else
    Some [0xF0 + c / 262144; 0x80 + (c / 4096) mod 64;
          0x80 + (c / 64) mod 64; 0x80 + c mod 64].

Fixpoint encode_utf8 (s : list Z) : option (list Z) :=
  match s with
  | [] => Some []
  | c :: s' =>
      match utf8_char c, encode_utf8 s' with
      | Some b, Some bs => Some (b ++ bs)
      | _, _ => None
      end
  end.

(** [range(0, n, 2)] *)
Definition range_step2 (n : nat) : list nat :=
  (λ k, 2 * k)%nat <$> seq 0 ((n + 1) / 2).

(** One pass of the loop body of [hash_password] at index [i]:
    [password_md5[0:i] + "c" + password_md5[i + 1:]] when the
    character at [i] is ["0"].  The index is always in range since the
    rewrite keeps the length. *)
Definition hash_password_step (password_md5 : string) (i : nat) : string :=
  let cs := Str.chars password_md5 in
  match cs !! i with
  | Some c =>
      if Ascii.eqb c "0"
      then Str.of_chars (take i cs) +:+ "c" +:+ Str.of_chars (drop (i + 1) cs)
      else password_md5
  | None => password_md5
  end.

(** The same loop body read on the list of characters. *)
Definition step_chars (cs : list ascii) (i : nat) : list ascii :=
  match cs !! i with
  | Some c => if Ascii.eqb c "0" then <[i := "c"%char]> cs else cs
  | None => cs
  end.

Definition hash_password_loop (password_md5 : string) : string :=
  fold_left hash_password_step
            (range_step2 (String.length password_md5)) password_md5.

Definition hash_password (password : list Z) : outcome string :=
  match encode_utf8 password with
  | None => Raise UnicodeEncodeError
  | Some bytes => Return (hash_password_loop (Hashlib.md5_hexdigest bytes))
  end.

(** The digest as the documentation words it: at every even index a
    ["0"] becomes ["c"], every other character stays. *)
Definition replace_even_zeros (digest : string) : string :=
  Str.of_chars
    (imap (λ i c, if Nat.even i && Ascii.eqb c "0" then "c"%char else c)
          (Str.chars digest)).

(** ** Cache content, requests and the remote server *)

Record ShinePhoneDayData := {
  datestr : string;
  todayenergy : Py.num;
  samples : gmap string spec_float
}.

Definition ShinePhoneDayData_init (datestr : string) (todayenergy : Py.num)
  : ShinePhoneDayData :=
  {| datestr := datestr; todayenergy := todayenergy; samples := ∅ |}.

Definition set_todayenergy (v : Py.num) (r : ShinePhoneDayData) : ShinePhoneDayData :=
  {| datestr := datestr r; todayenergy := v; samples := samples r |}.

Definition set_samples (v : gmap string spec_float) (r : ShinePhoneDayData)
  : ShinePhoneDayData :=
  {| datestr := datestr r; todayenergy := todayenergy r; samples := v |}.

(** What [dump_to_picklefile] writes:
    [(year_complete, yearproduction, days)]. *)
Abbreviation Pickle := (bool * spec_float * gmap string ShinePhoneDayData)%type.

Module Timespan.

Inductive t := day | month | year | total.

Definition value (ts : t) : Z :=
  match ts with day => 1 | month => 2 | year => 3 | total => 4 end.

(** [format_date]; a [None] date has no [strftime]. *)
Definition format_date (ts : t) (date : option Date.datetime) : outcome string :=
  match ts, date with
  | total, _ => Return ""
  | _, None => Raise AttributeError
  | day, Some d => Return (Date.strftime_ymd d)
  | month, Some d => Return (Date.strftime_ym d)
  | year, Some d => Return (Date.strftime_y d)
  end.

End Timespan.

Inductive request :=
| LoginAPI (userName password : string)
| PlantListAPI
| newPlantDetailAPI (plantId : string) (type : Z) (date : string)
| logout_do.

(** The ["back"] object of a response, at the shape the program reads:
    ["success"] (absent, or its truth value), the ["plantId"]s of the
    ["data"] list of a plant list, ["plantData"]["plantName"] and the
    ["data"] mapping of a detail, its values already through [float]. *)
Record Back := {
  back_success : option bool;
  back_plantIds : list string;
  back_plantName : string;
  back_data : list (string * spec_float)
}.

Inductive http :=
| ConnectionFailed
| Response (status_code : Z) (back : Back).

Inductive event :=
| Request (q : request)
| Progress (value : Z)
| MessageBox (title message : string)
| Dump (filename : string) (content : Pickle).

(** The server answers a request knowing everything that happened before. *)
Definition Server : Type := list event → request → http.

(** The settings object [g]. *)
Record Config := {
  username : string;
  password : list Z;
  pickle_template : string
}.

(** ** GrowattServerData: the object and the run around it *)

Record GrowattServerData := {
  setprogress : bool;
  yearsavailableonserver : gmap Z spec_float;
  days : gmap string ShinePhoneDayData;
  year_complete : bool;
  year : Z;
  plant_info : option Back;
  plant_id : option string;
  plant_name : option string;
  yearproduction : option spec_float;
  yearsavailable : option (list Z)
}.

Definition set_yearsavailableonserver (v : gmap Z spec_float) (o : GrowattServerData) : GrowattServerData :=
  {| setprogress := setprogress o;
     yearsavailableonserver := v;
     days := days o;
     year_complete := year_complete o;
     year := year o;
     plant_info := plant_info o;
     plant_id := plant_id o;
     plant_name := plant_name o;
     yearproduction := yearproduction o;
     yearsavailable := yearsavailable o |}.

Definition set_days (v : gmap string ShinePhoneDayData) (o : GrowattServerData) : GrowattServerData :=
  {| setprogress := setprogress o;
     yearsavailableonserver := yearsavailableonserver o;
     days := v;
     year_complete := year_complete o;
     year := year o;
     plant_info := plant_info o;
     plant_id := plant_id o;
     plant_name := plant_name o;
     yearproduction := yearproduction o;
     yearsavailable := yearsavailable o |}.

Definition set_year_complete (v : bool) (o : GrowattServerData) : GrowattServerData :=
  {| setprogress := setprogress o;
     yearsavailableonserver := yearsavailableonserver o;
     days := days o;
     year_complete := v;
     year := year o;
     plant_info := plant_info o;
     plant_id := plant_id o;
     plant_name := plant_name o;
     yearproduction := yearproduction o;
     yearsavailable := yearsavailable o |}.

Definition set_plant_info (v : option Back) (o : GrowattServerData) : GrowattServerData :=
  {| setprogress := setprogress o;
     yearsavailableonserver := yearsavailableonserver o;
     days := days o;
     year_complete := year_complete o;
     year := year o;
     plant_info := v;
     plant_id := plant_id o;
     plant_name := plant_name o;
     yearproduction := yearproduction o;
     yearsavailable := yearsavailable o |}.

Definition set_plant_id (v : option string) (o : GrowattServerData) : GrowattServerData :=
  {| setprogress := setprogress o;
     yearsavailableonserver := yearsavailableonserver o;
     days := days o;
     year_complete := year_complete o;
     year := year o;
     plant_info := plant_info o;
     plant_id := v;
     plant_name := plant_name o;
     yearproduction := yearproduction o;
     yearsavailable := yearsavailable o |}.

Definition set_plant_name (v : option string) (o : GrowattServerData) : GrowattServerData :=
  {| setprogress := setprogress o;
     yearsavailableonserver := yearsavailableonserver o;
     days := days o;
     year_complete := year_complete o;
     year := year o;
     plant_info := plant_info o;
     plant_id := plant_id o;
     plant_name := v;
     yearproduction := yearproduction o;
     yearsavailable := yearsavailable o |}.

Definition set_yearproduction (v : option spec_float) (o : GrowattServerData) : GrowattServerData :=
  {| setprogress := setprogress o;
     yearsavailableonserver := yearsavailableonserver o;
     days := days o;
     year_complete := year_complete o;
     year := year o;
     plant_info := plant_info o;
     plant_id := plant_id o;
     plant_name := plant_name o;
     yearproduction := v;
     yearsavailable := yearsavailable o |}.

Definition set_yearsavailable (v : option (list Z)) (o : GrowattServerData) : GrowattServerData :=
  {| setprogress := setprogress o;
     yearsavailableonserver := yearsavailableonserver o;
     days := days o;
     year_complete := year_complete o;
     year := year o;
     plant_info := plant_info o;
     plant_id := plant_id o;
     plant_name := plant_name o;
     yearproduction := yearproduction o;
     yearsavailable := v |}.

(** [self.year], for places where [year] names an argument. *)
Definition year_of (o : GrowattServerData) : Z := year o.

Record Run := {
  self : GrowattServerData;
  logged_in : bool;
  trace : list event
}.

Definition set_self (v : GrowattServerData) (r : Run) : Run :=
  {| self := v; logged_in := logged_in r; trace := trace r |}.

Definition set_logged_in (v : bool) (r : Run) : Run :=
  {| self := self r; logged_in := v; trace := trace r |}.

Definition set_trace (v : list event) (r : Run) : Run :=
  {| self := self r; logged_in := logged_in r; trace := v |}.

(** ** State and exceptions: a computation changes the state and returns
    or raises; what it changed before raising stays changed. *)

Definition M (St A : Type) : Type := St → St * outcome A.

Definition ret {St A} (a : A) : M St A := λ s, (s, Return a).

Definition raise {St A} (e : exn) : M St A := λ s, (s, Raise e).

Definition bind {St A B} (m : M St A) (k : A → M St B) : M St B :=
  λ s, match m s with
       | (s', Return a) => k a s'
       | (s', Raise e) => (s', Raise e)
       end.

Definition lift {St A} (o : outcome A) : M St A := λ s, (s, o).

Definition get {St} : M St St := λ s, (s, Return s).

Definition modify {St} (f : St → St) : M St unit := λ s, (f s, Return tt).

Notation "x <- c1 ;; c2" := (bind c1 (λ x, c2))
  (at level 100, c1 at next level, right associativity, only parsing).
Notation "c1 ;;; c2" := (bind c1 (λ _, c2))
  (at level 100, right associativity, only parsing).

Definition emit (e : event) : M Run unit :=
  modify (λ r, set_trace (trace r ++ [e]) r).

Definition update (f : GrowattServerData → GrowattServerData) : M Run unit :=
  modify (λ r, set_self (f (self r)) r).

Definition get_self : M Run GrowattServerData :=
  r <- get ;; ret (self r).

Definition attr {A} (f : GrowattServerData → option A) : M Run A :=
  r <- get ;;
  match f (self r) with
  | Some a => ret a
  | None => raise AttributeError
  end.

(** ** GrowattApi *)

Section Engine.

Variable server : Server.
Variable g : Config.
Variable now : Date.datetime.

(** [self.session.get] / [self.session.post]: the request goes out, the
    transport may fail. *)
Definition session_send (q : request) : M Run (Z * Back) :=
  λ r,
    let r' := set_trace (trace r ++ [Request q]) r in
    match server (trace r) q with
    | ConnectionFailed => (r', Raise ConnectionError)
    | Response status_code back => (r', Return (status_code, back))
    end.

Definition _back_success_response (response : Z * Back) : outcome Back :=
  let '(status_code, result) := response in
  if negb (status_code =? 200) then Raise GrowattApiError
  else
    match back_success result with
    | Some true => Return result
    | _ => Raise GrowattApiError
    end.

Definition login (username : string) (password : list Z) : M Run Back :=
  password_md5 <- lift (hash_password password) ;;
  response <- session_send (LoginAPI username password_md5) ;;
  match _back_success_response response with
  | Return result => modify (set_logged_in true) ;;; ret result
  | Raise e =>
      if isinstance e GrowattApiError then raise LoginError else raise e
  end.

Definition plant_list : M Run Back :=
  response <- session_send PlantListAPI ;;
  lift (_back_success_response response).

Definition new_plant_detail (plant_id : string) (timespan : Timespan.t)
    (date : option Date.datetime) : M Run Back :=
  date_str <- lift (Timespan.format_date timespan date) ;;
  response <- session_send
                (newPlantDetailAPI plant_id (Timespan.value timespan) date_str) ;;
  lift (_back_success_response response).

Definition logout : M Run unit :=
  session_send logout_do ;;;
  modify (set_logged_in false).

(** [with GrowattApi() as gwa: body]: a fresh client, and [__exit__]
    logs out when the client is logged in, whatever [body] did. *)
Definition with_GrowattApi {A} (body : M Run A) : M Run A :=
  λ r,
    let '(r1, o) := body (set_logged_in false r) in
    if logged_in r1 then
      match logout r1 with
      | (r2, Return _) => (r2, o)
      | (r2, Raise e) => (r2, Raise e)
      end
    else (r1, o).

(** ** downloadgrowattdata *)

(** The dict comprehension that builds [yearsavailableonserver]. *)
Fixpoint years_on_server (data : list (string * spec_float))
    (acc : gmap Z spec_float) : outcome (gmap Z spec_float) :=
  match data with
  | [] => Return acc
  | (y, v) :: rest =>
      if Py.gt (Py.Float v) (Py.Int 0) then
        match Str.to_int y with
        | Some yi => years_on_server rest (<[yi := v]> acc)
        | None => Raise ValueError
        end
      else years_on_server rest acc
  end.

(** [int(100 * daycount / nr_of_days)] *)
Definition progress_value (daycount nr_of_days : Z) : outcome Z :=
  match Py.truediv (Py.Int (100 * daycount)) (Py.Int nr_of_days) with
  | None => Raise ZeroDivisionError
  | Some q =>
      match Py.int_of_float (Py.to_float q) with
      | Some v => Return v
      | None => Raise ValueError
      end
  end.

(** [if datestr not in self.days: self.days[datestr] = ShinePhoneDayData(...)] *)
Definition ensure_day (datestr : string) : M Run unit :=
  update (λ o,
    match days o !! datestr with
    | Some _ => o
    | None => set_days (<[datestr := ShinePhoneDayData_init datestr (Py.Int 0)]> (days o)) o
    end).

(** [self.days[datestr].samples[timestampstr] = actualpower] *)
Definition store_sample (datestr timestampstr : string) (actualpower : spec_float)
  : M Run unit :=
  update (λ o,
    set_days
      (alter (λ r, set_samples (<[timestampstr := actualpower]> (samples r)) r)
             datestr (days o)) o).

(** [self.days[datestr].todayenergy = etoday] *)
Definition store_todayenergy (datestr : string) (etoday : spec_float) : M Run unit :=
  update (λ o,
    set_days
      (alter (set_todayenergy (Py.Float etoday)) datestr (days o)) o).

(** [for datetimestampstr in data: ...] *)
Fixpoint merge_samples (datestr : string) (data : list (string * spec_float))
  : M Run unit :=
  match data with
  | [] => ret tt
  | (datetimestampstr, actualpower) :: rest =>
      match Str.split " " datetimestampstr with
      | _ :: timestampstr :: _ =>
          store_sample datestr timestampstr actualpower ;;;
          merge_samples datestr rest
      | _ => raise IndexError
      end
  end.

(** [if self.setprogress is not None: daycount += 1; self.setprogress(...)];
    the result is the new [daycount]. *)
Definition notify_progress (nr_of_days daycount : Z) : M Run Z :=
  o <- get_self ;;
  if setprogress o then
    v <- lift (progress_value (daycount + 1) nr_of_days) ;;
    emit (Progress v) ;;;
    ret (daycount + 1)
  else ret daycount.

(** What the first loop does with the answer for day [d]: the plant name,
    the DayRecord, the samples. *)
Definition store_day (d : Date.datetime) (plant_detail : Back) : M Run unit :=
  plant_name <- attr plant_name ;;
  (if bool_decide (plant_name ≠ back_plantName plant_detail)
   then update (set_plant_name (Some (back_plantName plant_detail)))
   else ret tt) ;;;
  let datestr := Date.strftime_ymd d in
  ensure_day datestr ;;;
  merge_samples datestr (back_data plant_detail).

(** [for d in daterange(start_date, end_date): ...], the first loop. *)
Fixpoint day_loop (nr_of_days daycount : Z) (dates : list Date.datetime)
  : M Run unit :=
  match dates with
  | [] => ret tt
  | d :: rest =>
      daycount <- notify_progress nr_of_days daycount ;;
      plant_id <- attr plant_id ;;
      plant_detail <- new_plant_detail plant_id Timespan.day (Some d) ;;
      store_day d plant_detail ;;;
      day_loop nr_of_days daycount rest
  end.

(** The [(year, month)] pairs of the range, each once, in order. *)
Fixpoint months_of (dates : list Date.datetime) (months : list (Z * Z))
  : list (Z * Z) :=
  match dates with
  | [] => months
  | d :: rest =>
      let ym := (Date.year d, Date.month d) in
      months_of rest (if bool_decide (ym ∈ months) then months else months ++ [ym])
  end.

(** [for day in monthdata.keys(): ...] *)
Fixpoint merge_month (monthstr : string) (monthdata : list (string * spec_float))
  : M Run unit :=
  match monthdata with
  | [] => ret tt
  | (day, etoday) :: rest =>
      let datestr := monthstr +:+ day in
      ensure_day datestr ;;;
      store_todayenergy datestr etoday ;;;
      merge_month monthstr rest
  end.

(** ["{:4}-{:02}-".format(m[0], m[1])] *)
Definition month_prefix (y m : Z) : string :=
  Str.rjust " " 4 (Str.of_int y) +:+ "-" +:+ Str.rjust "0" 2 (Str.of_int m) +:+ "-".

(** [for m in months: ...] *)
Fixpoint month_loop (months : list (Z * Z)) : M Run unit :=
  match months with
  | [] => ret tt
  | (y, m) :: rest =>
      let monthstr := month_prefix y m in
      firstday <- lift (match Date.make y m 1 with
                        | Some d => Return d
                        | None => Raise ValueError
                        end) ;;
      plant_id <- attr plant_id ;;
      plantdetail_month <- new_plant_detail plant_id Timespan.month (Some firstday) ;;
      merge_month monthstr (back_data plantdetail_month) ;;;
      month_loop rest
  end.

(** The body of the [with] block. *)
Definition download_body (start_date end_date : Date.datetime) : M Run unit :=
  login (username g) (password g) ;;;
  plant_info <- plant_list ;;
  update (set_plant_info (Some plant_info)) ;;;
  plant_id <- lift (match back_plantIds plant_info with
                    | p :: _ => Return p
                    | [] => Raise IndexError
                    end) ;;
  update (set_plant_id (Some plant_id)) ;;;
  update (set_plant_name (Some "")) ;;;
  plant_detail <- new_plant_detail plant_id Timespan.total None ;;
  years <- lift (years_on_server (back_data plant_detail) ∅) ;;
  update (set_yearsavailableonserver years) ;;;
  update (set_yearproduction
            (Some (match years !! Date.year start_date with
                   | Some v => v
                   | None => Py.float_of_int 0
                   end))) ;;;
  let nr_of_days := Date.diff_days end_date start_date + 1 in
  day_loop nr_of_days 0 (daterange start_date end_date) ;;;
  month_loop (months_of (daterange start_date end_date) []).

(** The [try] around the block: the first clause that matches the
    exception shows a message box and the result is [False]; anything
    else leaves the function. *)
Definition downloadgrowattdata (start_date end_date : Date.datetime) : M Run bool :=
  λ r,
    match with_GrowattApi (download_body start_date end_date) r with
    | (r', Return _) => (r', Return true)
    | (r', Raise e) =>
        if isinstance e GrowattApiError then
          (emit (MessageBox "Connection Error" "No connection to Growatt servers") ;;;
           ret false) r'
        else if isinstance e ConnectionError then
          (emit (MessageBox "Connection Error" "No connection to Growatt servers") ;;;
           ret false) r'
        else if isinstance e LoginError then
          (emit (MessageBox "Login Error" "Username / password not correct") ;;;
           ret false) r'
        else (r', Raise e)
    end.

End Engine.

(** ** The pickle directory and the constructor *)

(** [fnmatch] for the patterns of [glob]: ["?"] is any one character,
    ["*"] any run of characters, everything else stands for itself. *)
Fixpoint fnmatch (pat name : list ascii) : bool :=
  match pat with
  | [] => match name with [] => true | _ => false end
  | "*"%char :: pat' =>
      (fix star (name : list ascii) : bool :=
         fnmatch pat' name ||
         match name with
         | [] => false
         | _ :: name' => star name'
         end) name
  | "?"%char :: pat' =>
      match name with
      | _ :: name' => fnmatch pat' name'
      | [] => false
      end
  | c :: pat' =>
      match name with
      | c' :: name' => Ascii.eqb c c' && fnmatch pat' name'
      | [] => false
      end
  end.

(** ["".join(cf for cf, cd in zip(name, template) if cd == "?")] *)
Fixpoint wildcard_chars (name template : list ascii) : list ascii :=
  match name, template with
  | cf :: name', cd :: template' =>
      if Ascii.eqb cd "?" then cf :: wildcard_chars name' template'
      else wildcard_chars name' template'
  | _, _ => []
  end.

(** The object under construction together with the directory
    [g.pickle_dir], a map from file name to what the file holds. *)
Record Sys := {
  run : Run;
  files : gmap string Pickle
}.

Definition set_run (v : Run) (s : Sys) : Sys := {| run := v; files := files s |}.

Definition set_files (v : gmap string Pickle) (s : Sys) : Sys :=
  {| run := run s; files := v |}.

Definition lift_run {A} (m : M Run A) : M Sys A :=
  λ s, let '(r, o) := m (run s) in (set_run r s, o).

(** The attributes [__init__] assigns before it looks at [year]. *)
Definition fresh_object (setprogress : bool) : GrowattServerData :=
  {| setprogress := setprogress;
     yearsavailableonserver := ∅;
     days := ∅;
     year_complete := false;
     year := 0;
     plant_info := None;
     plant_id := None;
     plant_name := None;
     yearproduction := None;
     yearsavailable := None |}.

Definition set_year (v : Z) (o : GrowattServerData) : GrowattServerData :=
  {| setprogress := setprogress o;
     yearsavailableonserver := yearsavailableonserver o;
     days := days o;
     year_complete := year_complete o;
     year := v;
     plant_info := plant_info o;
     plant_id := plant_id o;
     plant_name := plant_name o;
     yearproduction := yearproduction o;
     yearsavailable := yearsavailable o |}.

(** [dt.datetime(y, m, d)] as a step of a computation. *)
Definition datetime_ {St} (y m d : Z) : M St Date.datetime :=
  match Date.make y m d with
  | Some v => ret v
  | None => raise ValueError
  end.

(** [self.yearsavailable.append(year)] for the server years not yet in
    the list. *)
Definition append_missing (local : list Z) (server_years : list Z) : list Z :=
  foldl (λ acc y, if bool_decide (y ∈ acc) then acc else acc ++ [y])
        local server_years.

(** The world before a constructor call: the directory, no event yet. *)
Definition boot (dir : gmap string Pickle) (setprogress : bool) : Sys :=
  {| run := {| self := fresh_object setprogress;
               logged_in := false;
               trace := [] |};
     files := dir |}.

Section Constructor.

Variable server : Server.
Variable g : Config.
Variable now : Date.datetime.

(** The file of a year: the template with ["????"] replaced by the year. *)
Definition picklefile (year : Z) : string :=
  Str.replace_qqqq (Str.of_int year) (pickle_template g).

Definition yearsavailablelocally (dir : gmap string Pickle) : list Z :=
  let names :=
    filter (λ f, fnmatch (Str.chars (pickle_template g)) (Str.chars f) = true)
           (map_to_list dir).*1 in
  omap (λ f, Str.to_int
               (Str.of_chars (wildcard_chars (Str.chars f)
                                             (Str.chars (pickle_template g)))))
       names.

Definition dump_to_picklefile (year : Z) : M Sys bool :=
  yearproduction <- lift_run (attr yearproduction) ;;
  o <- lift_run get_self ;;
  let content := (year_complete o, yearproduction, days o) in
  lift_run (emit (Dump (picklefile year) content)) ;;;
  modify (λ s, set_files (<[picklefile year := content]> (files s)) s) ;;;
  ret true.

Definition load_from_picklefile (year : Z) : M Sys bool :=
  s <- get ;;
  match files s !! picklefile year with
  | Some (year_complete, yearproduction, days) =>
      lift_run (update (λ o, set_days days
                               (set_yearproduction (Some yearproduction)
                                  (set_year_complete year_complete o)))) ;;;
      ret true
  | None => ret false
  end.

(** [__init__] up to the choice of the range: the attributes, the end
    date, the cache file and [start_date]. *)
Definition init_range (year : option Z) (setprogress : bool)
  : M Sys (Date.datetime * Date.datetime) :=
  lift_run (update (λ _, fresh_object setprogress)) ;;;
  end_date <-
    match year with
    | None =>
        lift_run (update (set_year (Date.year now))) ;;; ret now
    | Some y =>
        lift_run (update (set_year y)) ;;;
        if y =? Date.year now then ret now else datetime_ y 12 31
    end ;;
  o <- lift_run get_self ;;
  found <- load_from_picklefile (year_of o) ;;
  if found then
    lift_run (update (set_plant_id (Some "plant_id"))) ;;;
    lift_run (update (set_plant_name (Some "plant_name"))) ;;;
    o <- lift_run get_self ;;
    start_date <-
      (if 0 <? Z.of_nat (size (days o)) then
         match Str.max_of (map_to_list (days o)).*1 with
         | Some k =>
             match Date.strptime_ymd k with
             | Some d => ret d
             | None => raise ValueError
             end
         | None => raise ValueError
         end
       else datetime_ (year_of o) 1 1) ;;
    end_date <-
      match year with
      | Some y => if Date.year now =? y then ret now else datetime_ y 12 31
      | None => raise TypeError
      end ;;
    ret (start_date, end_date)
  else
    start_date <-
      match year with
      | Some y => datetime_ y 1 1
      | None => raise TypeError
      end ;;
    ret (start_date, end_date).

(** [if not self.year_complete: ...]: the download, the completeness
    flag and the dump. *)
Definition fetch_and_dump (start_date end_date : Date.datetime) : M Sys unit :=
  o <- lift_run get_self ;;
  if negb (year_complete o) then
    ok <- lift_run (downloadgrowattdata server g start_date end_date) ;;
    if ok then
      (if Date.year start_date <? Date.year now
       then lift_run (update (set_year_complete true))
       else ret tt) ;;;
      o <- lift_run get_self ;;
      dump_to_picklefile (year_of o) ;;;
      ret tt
    else ret tt
  else ret tt.

(** The last four lines: local years, then the server years that are
    missing, then [sort]. *)
Definition collect_years : M Sys unit :=
  s <- get ;;
  let o := self (run s) in
  let years :=
    merge_sort Z.le
      (append_missing (yearsavailablelocally (files s))
                      (map_to_list (yearsavailableonserver o)).*1) in
  lift_run (update (set_yearsavailable (Some years))).

Definition GrowattServerData__init__ (year : option Z) (setprogress : bool)
  : M Sys unit :=
  range <- init_range year setprogress ;;
  fetch_and_dump range.1 range.2 ;;;
  collect_years.

(** A constructor call from a given directory, nothing having happened
    before. *)
Definition sync (dir : gmap string Pickle) (year : option Z) (setprogress : bool)
  : Sys * outcome unit :=
  GrowattServerData__init__ year setprogress (boot dir setprogress).

End Constructor.

(** ** Drawing the year *)







Section Plot.

Variable prj : Projection.
Variable gsd : GrowattServerData.





End Plot.

(** ** Vocabulary of the statements *)

(** A property of the state before and after a computation that holds
    however the computation ends. *)
Definition stable {St A} (R : relation St) (m : M St A) : Prop :=
  ∀ s, R s (m s).1.

(** Events a download may add: requests, progress calls and message
    boxes, never a dump; a per-day request only for a date text in [K]. *)
Definition fetch_event (K : string → Prop) (e : event) : Prop :=
  match e with
  | Request (newPlantDetailAPI _ type date) => type = 1 → K date
  | Dump _ _ => False
  | _ => True
  end.

(** What a download leaves alone: the sink, the completeness flag and the
    year; a production total once set stays set; the trace only grows,
    by [fetch_event]s; and a DayRecord whose key is not in [K] is still
    there with the samples it had. *)
Definition download_rel (K : string → Prop) (r r' : Run) : Prop :=
  setprogress (self r') = setprogress (self r)
  ∧ year_complete (self r') = year_complete (self r)
  ∧ year (self r') = year (self r)
  ∧ (is_Some (yearproduction (self r)) → is_Some (yearproduction (self r')))
  ∧ (∃ evs, trace r' = trace r ++ evs ∧ Forall (fetch_event K) evs)
  ∧ (∀ k r0, ¬ K k → days (self r) !! k = Some r0 →
       ∃ r1, days (self r') !! k = Some r1
             ∧ samples r1 = samples r0 ∧ datestr r1 = datestr r0).

(** What one pass of a loop leaves alone besides: the trace, the client,
    the plant and the totals. *)
Definition quiet_rel (r r' : Run) : Prop :=
  trace r' = trace r
  ∧ logged_in r' = logged_in r
  ∧ setprogress (self r') = setprogress (self r)
  ∧ plant_id (self r') = plant_id (self r)
  ∧ yearproduction (self r') = yearproduction (self r)
  ∧ yearsavailableonserver (self r') = yearsavailableonserver (self r)
  ∧ year_complete (self r') = year_complete (self r)
  ∧ year (self r') = year (self r).

(** The object right after the cache file of year [y] was read. *)
Definition loaded_object (sink : bool) (y : Z) (content : Pickle) : GrowattServerData :=
  {| setprogress := sink;
     yearsavailableonserver := ∅;
     days := content.2;
     year_complete := content.1.1;
     year := y;
     plant_info := None;
     plant_id := Some "plant_id";
     plant_name := Some "plant_name";
     yearproduction := Some content.1.2;
     yearsavailable := None |}.

Definition loaded (dir : gmap string Pickle) (sink : bool) (y : Z) (content : Pickle)
  : Sys :=
  {| run := {| self := loaded_object sink y content;
               logged_in := false;
               trace := [] |};
     files := dir |}.



(** A login the server does not accept: no connection, a status other
    than 200, or an answer without a true ["success"]. *)
Definition login_rejected (answer : http) : Prop :=
  match answer with
  | ConnectionFailed => True
  | Response status_code back =>
      _back_success_response (status_code, back) = Raise GrowattApiError
  end.

(** The number [int(100 * daycount / nr_of_days)] when it is one. *)
Definition progress_int (daycount nr_of_days : Z) : Z :=
  match progress_value daycount nr_of_days with
  | Return v => v
  | Raise _ => 0
  end.

(** The events of the first loop for [dates], the [k]-th date of [n]
    counted from [daycount + 1]: the progress call, when there is a sink,
    then the request for that day. *)
Fixpoint day_events (sink : bool) (plant_id : string) (n daycount : Z)
    (dates : list Date.datetime) : list event :=
  match dates with
  | [] => []
  | d :: rest =>
      if sink then
        Progress (progress_int (daycount + 1) n)
        :: Request (newPlantDetailAPI plant_id 1 (Date.strftime_ymd d))
        :: day_events sink plant_id n (daycount + 1) rest
      else
        Request (newPlantDetailAPI plant_id 1 (Date.strftime_ymd d))
        :: day_events sink plant_id n daycount rest
  end.

(** The requests of the second loop. *)
Fixpoint month_events (plant_id : string) (months : list (Z * Z)) : list event :=
  match months with
  | [] => []
  | (y, m) :: rest =>
      match Date.make y m 1 with
      | Some firstday =>
          Request (newPlantDetailAPI plant_id 2 (Date.strftime_ym firstday))
          :: month_events plant_id rest
      | None => []
      end
  end.

(** The date texts of the per-day requests of a trace, in order. *)
Definition day_requests (tr : list event) : list string :=
  omap (λ e, match e with
             | Request (newPlantDetailAPI _ 1 date) => Some date
             | _ => None
             end) tr.

(** The values the progress sink received, in order. *)
Definition progress_values (tr : list event) : list Z :=
  omap (λ e, match e with Progress v => Some v | _ => None end) tr.

(** Progress values and day requests of a trace, in order. *)
Definition is_loop_event (e : event) : bool :=
  match e with
  | Progress _ | Request (newPlantDetailAPI _ 1 _) => true
  | _ => false
  end.

Definition loop_events (tr : list event) : list event :=
  List.filter is_loop_event tr.

(** [int(100 * daycount / nr_of_days)] once more, on the kernel's own
    binary64 numbers: the same value (by the specification of the
    primitive operations) at a fraction of the cost, for the table below. *)
Definition progress_value_prim (daycount nr_of_days : Z) : option Z :=
  Py.int_of_float
    (FloatOps.Prim2SF
       (PrimFloat.div
          (PrimFloat.of_uint63 (Uint63.of_Z (100 * daycount)))
          (PrimFloat.of_uint63 (Uint63.of_Z nr_of_days)))).

(** The value against the truncated integer quotient, for every count up
    to [k] of [n] days and for every [n] up to a bound. *)
Fixpoint progress_row (n : Z) (k : nat) : bool :=
  match k with
  | O => true
  | S k' =>
      match progress_value_prim (Z.of_nat k) n with
      | Some v => v =? Z.quot (100 * Z.of_nat k) n
      | None => false
      end && progress_row n k'
  end.

Fixpoint progress_table (n : nat) : bool :=
  match n with
  | O => true
  | S n' => progress_row (Z.of_nat n) n && progress_table n'
  end.

(** *** The calendar *)

Definition year_length (y : Z) : Z := if Date.is_leap y then 366 else 365.

(** The second half of [ord2ymd]: month and day of the [n]-th day
    (counted from 0) of the year [y]. *)
Definition month_day (y n : Z) : Z * Z * Z :=
  let month := Z.shiftr (n + 50) 5 in
  let preceding := Date.days_before_month y month in
  if n <? preceding
  then (y, month - 1, n - (preceding - Date.days_in_month y (month - 1)) + 1)
  else (y, month, n - preceding + 1).

(** A year with the same calendar: 4 for a leap year, 1 otherwise. *)
Definition model_year (y : Z) : Z := if Date.is_leap y then 4 else 1.

Definition month_day_ok (y0 r : Z) : bool :=
  let '(_, m, d) := month_day y0 r in
  (1 <=? m) && (m <=? 12) && (1 <=? d) && (d <=? Date.days_in_month y0 m)
  && (Date.days_before_month y0 m + d =? r + 1).

(** *** Date texts *)

(** The decimal digit [k] as a character. *)
Definition digit (k : Z) : ascii := pretty_N_char (Z.to_N k).

Definition no_dash (t : list ascii) : bool :=
  forallb (λ c, negb (Ascii.eqb c "-")) t.

Definition month_text_ok (m : Z) : bool :=
  let t := Str.chars (Str.rjust "0" 2 (Str.of_int m)) in
  no_dash t && match Date.parse_m t with Some v => v =? m | None => false end.

Definition day_text_ok (d : Z) : bool :=
  let t := Str.chars (Str.rjust "0" 2 (Str.of_int d)) in
  no_dash t && match Date.parse_d t with Some v => v =? d | None => false end.

(** *** File names *)




(** *** Sessions and days *)

(** Events between the login and the logout of a download: requests for
    the plant list and plant details, and progress calls. *)
Definition inner_event (e : event) : Prop :=
  match e with
  | Request PlantListAPI | Request (newPlantDetailAPI _ _ _) | Progress _ => True
  | _ => False
  end.

(** What the steps between login and logout do to the client: the login
    flag stays, the trace grows by [inner_event]s. *)
Definition session_rel (r r' : Run) : Prop :=
  logged_in r' = logged_in r
  ∧ ∃ evs, trace r' = trace r ++ evs ∧ Forall inner_event evs.

(** Nothing is forgotten: a DayRecord is still there, under its key and
    with its date text, and holds every sample time it held. *)
Definition keeps_days (r r' : Run) : Prop :=
  ∀ k rec, days (self r) !! k = Some rec →
    ∃ rec', days (self r') !! k = Some rec'
            ∧ datestr rec' = datestr rec
            ∧ ∀ ts, is_Some (samples rec !! ts) → is_Some (samples rec' !! ts).

(** ** Sample data for the concrete runs below *)

Module Sample.





Definition cfg : Config :=
  {| username := "jan"; password := [115; 111; 108; 97; 114];
     pickle_template := "solarviewdata_????.pkl" |}.

(** March 12, 2020, three in the afternoon. *)
Definition now : Date.datetime :=
  {| Date.ordinal := 737496; Date.microsecond_of_day := 54000000000 |}.

Definition ok (plantIds : list string) (plantName : string)
    (data : list (string * spec_float)) : http :=
  Response 200 {| back_success := Some true; back_plantIds := plantIds;
                  back_plantName := plantName; back_data := data |}.

(** A server that answers everything: one plant, totals for 2018 (zero),
    2019 and 2020, two samples per day, three daily totals per month. *)
Definition server_ok : Server :=
  λ _ q,
    match q with
    | newPlantDetailAPI _ 4 _ =>
        ok [] "" [("2018", Py.float_of_int 0); ("2019", Py.float_of_int 3000);
                  ("2020", Py.float_of_int 410)]
    | newPlantDetailAPI _ 1 d =>
        ok [] "Home" [(d +:+ " 12:00", Py.float_of_int 1000);
                      (d +:+ " 12:05", Py.float_of_int 1200)]
    | newPlantDetailAPI _ _ _ =>
        ok [] "Home" [("09", Py.float_of_int 7); ("10", Py.float_of_int 8);
                      ("11", Py.float_of_int 9)]
    | _ => ok ["P1"] "" []
    end.

(** The same server, out of order from March 11 on. *)
Definition server_down_from_11th : Server :=
  λ tr q,
    match q with
    | newPlantDetailAPI _ 1 "2020-03-11" =>
        Response 500 {| back_success := None; back_plantIds := [];
                        back_plantName := ""; back_data := [] |}
    | _ => server_ok tr q
    end.

(** A server that cannot be reached. *)
Definition server_unreachable : Server := λ _ _, ConnectionFailed.

Definition cached_day (d : string) : ShinePhoneDayData :=
  {| datestr := d;
     todayenergy := Py.Float (Py.float_of_int 5);
     samples := {[ "11:00" := Py.float_of_int 300 ]} |}.

(** A cache of 2020 that holds March 1 to March 10 and is not complete. *)
Definition march_days : gmap string ShinePhoneDayData :=
  list_to_map
    ((λ d, (d, cached_day d))
       <$> ["2020-03-01"; "2020-03-02"; "2020-03-03"; "2020-03-04"; "2020-03-05";
            "2020-03-06"; "2020-03-07"; "2020-03-08"; "2020-03-09"; "2020-03-10"]).

Definition dir_march : gmap string Pickle :=
  {[ "solarviewdata_2020.pkl" := (false, Py.float_of_int 50, march_days) ]}.

Definition march10 : Date.datetime :=
  {| Date.ordinal := 737494; Date.microsecond_of_day := 0 |}.

(** The constructor for 2020 right after it read [dir_march], with a
    progress sink. *)
Definition loaded_march : Sys :=
  loaded dir_march true 2020 (false, Py.float_of_int 50, march_days).


(** January 2, 2020, eight in the morning. *)
Definition jan2 : Date.datetime :=
  {| Date.ordinal := 737426; Date.microsecond_of_day := 28800000000 |}.

(** The server of [server_ok], unreachable for the logout only. *)
Definition server_no_logout : Server :=
  λ tr q,
    match q with
    | logout_do => ConnectionFailed
    | _ => server_ok tr q
    end.

(** A cache of 2019 that ends on December 30 and is not complete. *)
Definition dir_2019_open : gmap string Pickle :=
  {[ "solarviewdata_2019.pkl" :=
       (false, Py.float_of_int 3000, {[ "2019-12-30" := cached_day "2019-12-30" ]}) ]}.

(** The daily totals of a month answer. *)
Definition month_totals : list (string * spec_float) :=
  [("09", Py.float_of_int 7); ("10", Py.float_of_int 8); ("11", Py.float_of_int 9)].


End Sample.

(** ** Statements *)

Section ColorLookup.

Lemma power_to_color_scan_first table power color :
  power_to_color_scan table power = Some color ↔ first_bucket table power color.
Proof.
  induction table as [|[ub c] rest IH]; simpl.
  - split; [done|]. intros (i & b & Hi & _). by rewrite lookup_nil in Hi.
  - destruct (Py.le power ub) eqn:Hle.
    + split.
      * intros [= <-]. exists 0%nat, ub. repeat split; [done|]. lia.
      * intros (i & b & Hi & Hb & Hmin). destruct i as [|i].
        { by injection Hi as _ <-. }
        specialize (Hmin 0%nat ub c ltac:(lia) eq_refl). congruence.
    + rewrite IH. split.
      * intros (i & b & Hi & Hb & Hmin). exists (S i), b.
        repeat split; [done..|]. intros [|j] b' c' Hj Hl.
        { injection Hl as <- <-. done. }
        apply (Hmin j b' c'); [lia|done].
      * intros (i & b & Hi & Hb & Hmin). destruct i as [|i].
        { injection Hi as <- <-. congruence. }
        exists i, b. repeat split; [done..|]. intros j b' c' Hj Hl.
        apply (Hmin (S j) b' c'); [lia|done].
Qed.

Lemma le_inf_of_not_nan power :
  power ≠ Py.Float Py.nan → Py.le power (Py.Float Py.inf) = true.
Proof.
  destruct power as [z|[s|s| |s m e]]; try done; by destruct s.
Qed.

(** C9. The lookup returns the colour of the first row, in table order,
    whose upper bound is at least the power (the bound itself included);
    the table of [Projection] has the bounds 0, 500, 1000, 2000, 3000,
    4000, +inf in strictly increasing order, 500 W falls in the row
    bounded by 500 and 501 W in the row bounded by 1000. *)
Theorem power_to_color_first_bucket :
  (∀ (prj : Projection) (power : Py.num) (color : string),
     power_to_color prj power = Some color
     ↔ first_bucket (power_to_color_table prj) power color)
  ∧ (power_to_color_table Projection_init).*1
    = [Py.Int 0; Py.Int 500; Py.Int 1000; Py.Int 2000; Py.Int 3000;
       Py.Int 4000; Py.Float Py.inf]
  ∧ ascending (power_to_color_table Projection_init) = true
  ∧ power_to_color_table Projection_init !! 1%nat = Some (Py.Int 500, "#87CEFA")
  ∧ power_to_color_table Projection_init !! 2%nat = Some (Py.Int 1000, "#00FF00")
  ∧ power_to_color Projection_init (Py.Int 500) = Some "#87CEFA"
  ∧ power_to_color Projection_init (Py.Float (Py.float_of_int 500)) = Some "#87CEFA"
  ∧ power_to_color Projection_init (Py.Int 501) = Some "#00FF00"
  ∧ power_to_color Projection_init (Py.Float (Py.float_of_int 501)) = Some "#00FF00".
Proof.
  split; [|by vm_compute].
  intros prj power color. apply power_to_color_scan_first.
Qed.

(** C10, as amended. Every power other than NaN (all integers, all
    finite floats and both infinities) gets a colour from the table of
    [Projection]: its last bound, +inf, is at least any such power. *)
Theorem power_to_color_total_not_nan (power : Py.num) :
  power ≠ Py.Float Py.nan →
  is_Some (power_to_color Projection_init power).
Proof.
  intros Hnan. unfold power_to_color. simpl.
  repeat (match goal with
          | |- context [if Py.le power ?b then _ else _] =>
              destruct (Py.le power b) eqn:?; [by eexists|]
          end).
  by rewrite le_inf_of_not_nan in *.
Qed.

Lemma power_to_color_total_not_nan_witness :
  Py.Float (Py.float_of_int (-250)) ≠ Py.Float Py.nan
  ∧ is_Some (power_to_color Projection_init (Py.Float (Py.float_of_int (-250)))).
Proof.
  split; [discriminate|].
  apply (power_to_color_total_not_nan (Py.Float (Py.float_of_int (-250)))).
  discriminate.
Defined.

(** C10, as stated, fails: NaN compares below no bound, the scan falls
    off the table and the lookup yields no colour. *)
Lemma power_to_color_nan_falls_through :
  power_to_color Projection_init (Py.Float Py.nan) = None
  ∧ ¬ (∀ power : Py.num, is_Some (power_to_color Projection_init power)).
Proof.
  split; [reflexivity|].
  intros H. destruct (H (Py.Float Py.nan)) as [c Hc]. discriminate Hc.
Qed.

End ColorLookup.





(** *** The password digest *)

Section Digest.

Lemma chars_of_chars l : Str.chars (Str.of_chars l) = l.
Proof. apply String.list_ascii_of_string_of_list_ascii. Qed.

Lemma of_chars_chars s : Str.of_chars (Str.chars s) = s.
Proof. apply String.string_of_list_ascii_of_string. Qed.

Lemma chars_app s1 s2 : Str.chars (s1 +:+ s2) = Str.chars s1 ++ Str.chars s2.
Proof. induction s1 as [|c s1 IH]; simpl; [done|]. by rewrite <- IH. Qed.

Lemma length_chars s : length (Str.chars s) = String.length s.
Proof. induction s as [|c s IH]; simpl; [done|]. by f_equal. Qed.

Lemma hash_password_step_chars s i :
  Str.chars (hash_password_step s i) = step_chars (Str.chars s) i.
Proof.
  unfold hash_password_step, step_chars.
  destruct (Str.chars s !! i) as [c|] eqn:Hi; [|done].
  destruct (Ascii.eqb c "0"); [|done].
  rewrite !chars_app, !chars_of_chars. simpl.
  rewrite Nat.add_1_r. symmetry. apply insert_take_drop.
  by eapply lookup_lt_Some.
Qed.

Lemma fold_step_chars idx s :
  Str.chars (fold_left hash_password_step idx s)
  = fold_left step_chars idx (Str.chars s).
Proof.
  revert s. induction idx as [|i idx IH]; intros s; simpl; [done|].
  by rewrite IH, hash_password_step_chars.
Qed.

Lemma bool_decide_elem_of_cons_ne (i j : nat) idx :
  i ≠ j → bool_decide (j ∈ i :: idx) = bool_decide (j ∈ idx).
Proof.
  intros Hne. apply bool_decide_ext. rewrite elem_of_cons.
  split; [by intros [->|?]|by right].
Qed.

Lemma fold_step_chars_lookup idx cs j :
  fold_left step_chars idx cs !! j
  = (λ c, if bool_decide (j ∈ idx) && Ascii.eqb c "0" then "c"%char else c)
      <$> cs !! j.
Proof.
  revert cs. induction idx as [|i idx IH]; intros cs; simpl.
  - by destruct (cs !! j).
  - rewrite IH. unfold step_chars.
    destruct (decide (i = j)) as [->|Hne].
    + rewrite (bool_decide_eq_true_2 (j ∈ j :: idx)) by left.
      destruct (cs !! j) as [c|] eqn:Hj; [|by rewrite Hj].
      destruct (Ascii.eqb c "0") eqn:Hc.
      * rewrite list_lookup_insert_eq by (by eapply lookup_lt_Some).
        cbn. by rewrite Hc, andb_false_r.
      * rewrite Hj. cbn. by rewrite Hc, andb_false_r.
    + rewrite bool_decide_elem_of_cons_ne by done.
      destruct (cs !! i) as [c|]; [|done].
      destruct (Ascii.eqb c "0"); [|done].
      by rewrite list_lookup_insert_ne.
Qed.

Lemma elem_of_range_step2 n j :
  (j < n)%nat → j ∈ range_step2 n ↔ Nat.even j = true.
Proof.
  intros Hj. unfold range_step2. rewrite list_elem_of_fmap. split.
  - intros (k & -> & _). by rewrite Nat.even_mul.
  - intros [k ->]%Nat.even_spec. exists k. split; [done|].
    assert (S k <= (n + 1) / 2)%nat by (apply Nat.div_le_lower_bound; lia).
    apply elem_of_seq. lia.
Qed.

Lemma hash_password_loop_spec digest :
  hash_password_loop digest = replace_even_zeros digest.
Proof.
  unfold hash_password_loop, replace_even_zeros.
  rewrite <- (of_chars_chars (fold_left _ _ _)). f_equal.
  rewrite fold_step_chars. apply list_eq. intros j.
  rewrite fold_step_chars_lookup, list_lookup_imap.
  destruct (Str.chars digest !! j) as [c|] eqn:Hj; simpl; [|done].
  f_equal. apply lookup_lt_Some in Hj. rewrite length_chars in Hj.
  destruct (Nat.even j) eqn:He.
  - rewrite bool_decide_eq_true_2; [done|]. by apply elem_of_range_step2.
  - rewrite bool_decide_eq_false_2; [done|].
    rewrite elem_of_range_step2 by done. congruence.
Qed.

(** C7. The login digest is the MD5 hex digest of the UTF-8 bytes of the
    password with every ["0"] at an even index replaced by ["c"] and all
    other characters kept; a password that has no UTF-8 encoding raises.
    The empty password gives the known vector. *)
Theorem hash_password_even_zeros :
  (∀ password : list Z,
     hash_password password
     = match encode_utf8 password with
       | Some bytes => Return (replace_even_zeros (Hashlib.md5_hexdigest bytes))
       | None => Raise UnicodeEncodeError
       end)
  ∧ (∀ digest : string,
       String.length (replace_even_zeros digest) = String.length digest
       ∧ ∀ (i : nat) (c : ascii),
           Str.chars digest !! i = Some c →
           Str.chars (replace_even_zeros digest) !! i
           = Some (if Nat.even i && Ascii.eqb c "0" then "c"%char else c))
  ∧ Hashlib.md5_hexdigest [] = "d41d8cd98f00b204e9800998ecf8427e"
  ∧ hash_password [] = Return "d41d8cd98fc0b2c4e980c998ecf8427e".
Proof.
  split; [|split; [|by vm_compute]].
  - intros password. unfold hash_password.
    destruct (encode_utf8 password); [|done].
    by rewrite hash_password_loop_spec.
  - intros digest. unfold replace_even_zeros. split.
    + by rewrite <- !length_chars, chars_of_chars, length_imap.
    + intros i c Hi. by rewrite chars_of_chars, list_lookup_imap, Hi.
Qed.

End Digest.

(** *** Drawing *)

Section Drawing.






End Drawing.

(** *** Computations: sequencing and what stays stable *)

Section Computations.

Context {St : Type}.

Lemma stable_ret {A} (R : relation St) `{!Reflexive R} (a : A) :
  stable R (ret a).
Proof. intros s. simpl. reflexivity. Qed.

Lemma stable_raise {A} (R : relation St) `{!Reflexive R} (e : exn) :
  stable R (raise (A := A) e).
Proof. intros s. simpl. reflexivity. Qed.

Lemma stable_lift {A} (R : relation St) `{!Reflexive R} (o : outcome A) :
  stable R (lift o).
Proof. intros s. simpl. reflexivity. Qed.

Lemma stable_get (R : relation St) `{!Reflexive R} : stable R get.
Proof. intros s. simpl. reflexivity. Qed.

Lemma stable_modify (R : relation St) (f : St → St) :
  (∀ s, R s (f s)) → stable R (modify f).
Proof. intros H s. apply H. Qed.

Lemma stable_bind {A B} (R : relation St) `{!Transitive R}
    (m : M St A) (k : A → M St B) :
  stable R m → (∀ a, stable R (k a)) → stable R (bind m k).
Proof.
  intros Hm Hk s. unfold bind. specialize (Hm s).
  destruct (m s) as [s1 [a|e]]; simpl in *; [|done].
  etrans; [exact Hm|apply Hk].
Qed.

Lemma stable_bind_lift {A B} (R : relation St) `{!Reflexive R}
    (o : outcome A) (k : A → M St B) :
  (∀ a, o = Return a → stable R (k a)) → stable R (bind (lift o) k).
Proof.
  intros Hk s. unfold bind, lift. destruct o as [a|e]; simpl; [|done].
  by apply Hk.
Qed.

Lemma stable_impl {A} (R R' : relation St) (m : M St A) :
  (∀ s s', R s s' → R' s s') → stable R m → stable R' m.
Proof. intros H Hm s. apply H, Hm. Qed.

Lemma bind_Return {A B} (m : M St A) (k : A → M St B) s s' b :
  bind m k s = (s', Return b) →
  ∃ a s1, m s = (s1, Return a) ∧ k a s1 = (s', Return b).
Proof.
  unfold bind. destruct (m s) as [s1 [a|e]]; [|done]. intros H. by exists a, s1.
Qed.

Lemma bind_run {A B} (m : M St A) (k : A → M St B) s s1 a :
  m s = (s1, Return a) → bind m k s = k a s1.
Proof. intros H. unfold bind. by rewrite H. Qed.

End Computations.

(** Break a computation into its steps, leaving the steps that touch the
    state. *)
Ltac stable_tac :=
  repeat
    match goal with
    | |- ∀ _, _ => intro
    | |- stable _ (ret _) => apply stable_ret; apply _
    | |- stable _ (raise _) => apply stable_raise; apply _
    | |- stable _ (lift _) => apply stable_lift; apply _
    | |- stable _ get => apply stable_get; apply _
    | |- stable _ (bind (lift _) _) => apply stable_bind_lift; [apply _|]
    | |- stable _ (bind _ _) => apply stable_bind; [apply _| |]
    | |- stable _ (match ?x with _ => _ end) => destruct x
    end.

(** *** What a download leaves alone *)

Section DownloadRel.

Global Instance download_rel_refl K : Reflexive (download_rel K).
Proof.
  intros r. repeat split; try done.
  - exists []. by rewrite app_nil_r.
  - intros k r0 _ H. by exists r0.
Qed.

Global Instance download_rel_trans K : Transitive (download_rel K).
Proof.
  intros r1 r2 r3 (Hs & Hc & Hy & Hp & (e1 & Ht1 & Hf1) & Hd)
         (Hs' & Hc' & Hy' & Hp' & (e2 & Ht2 & Hf2) & Hd').
  repeat split; try congruence; [tauto| |].
  - exists (e1 ++ e2). rewrite Ht2, Ht1, app_assoc. split; [done|].
    by apply Forall_app.
  - intros k r0 HK H0. destruct (Hd k r0 HK H0) as (ra & Ha & Hsa & Hda).
    destruct (Hd' k ra HK Ha) as (rb & Hb & Hsb & Hdb).
    exists rb. repeat split; congruence.
Qed.

Global Instance quiet_rel_refl : Reflexive quiet_rel.
Proof. intros r. by repeat split. Qed.

Global Instance quiet_rel_trans : Transitive quiet_rel.
Proof.
  intros r1 r2 r3 (?&?&?&?&?&?&?&?) (?&?&?&?&?&?&?&?).
  repeat split; congruence.
Qed.

Lemma download_rel_mono (K K' : string → Prop) r r' :
  (∀ k, K k → K' k) → download_rel K r r' → download_rel K' r r'.
Proof.
  intros HK (Hs & Hc & Hy & Hp & (e1 & Ht1 & Hf1) & Hd).
  repeat split; try done.
  - exists e1. split; [done|]. eapply Forall_impl; [exact Hf1|].
    intros [[]| | |]; simpl; eauto.
  - intros k r0 Hk. apply Hd. eauto.
Qed.

Variable K : string → Prop.

Lemma dr_update (f : GrowattServerData → GrowattServerData) :
  (∀ o, setprogress (f o) = setprogress o
        ∧ year_complete (f o) = year_complete o
        ∧ year (f o) = year o
        ∧ (is_Some (yearproduction o) → is_Some (yearproduction (f o)))
        ∧ ∀ k r0, ¬ K k → days o !! k = Some r0 →
                  ∃ r1, days (f o) !! k = Some r1
                        ∧ samples r1 = samples r0 ∧ datestr r1 = datestr r0) →
  stable (download_rel K) (update f).
Proof.
  intros H r. destruct (H (self r)) as (?&?&?&?&?). simpl.
  repeat split; try done.
  exists []. by rewrite app_nil_r.
Qed.

Lemma dr_update_other (f : GrowattServerData → GrowattServerData) :
  (∀ o, setprogress (f o) = setprogress o
        ∧ year_complete (f o) = year_complete o
        ∧ year (f o) = year o
        ∧ (is_Some (yearproduction o) → is_Some (yearproduction (f o)))
        ∧ days (f o) = days o) →
  stable (download_rel K) (update f).
Proof.
  intros H. apply dr_update. intros o. destruct (H o) as (?&?&?&?&Hd).
  repeat split; try done. intros k r0 _ Hk. exists r0. by rewrite Hd.
Qed.

Lemma dr_logged_in b : stable (download_rel K) (modify (set_logged_in b)).
Proof.
  intros r. simpl. repeat split; try done.
  - exists []. by rewrite app_nil_r.
  - intros k r0 _ H. by exists r0.
Qed.

Lemma dr_emit e : fetch_event K e → stable (download_rel K) (emit e).
Proof.
  intros He r. simpl. repeat split; try done.
  - exists [e]. split; [done|]. by constructor.
  - intros k r0 _ H. by exists r0.
Qed.

Lemma dr_session_send server q :
  fetch_event K (Request q) → stable (download_rel K) (session_send server q).
Proof.
  intros He r. unfold session_send.
  assert (download_rel K r (set_trace (trace r ++ [Request q]) r)) as Hr.
  { repeat split; try done.
    - exists [Request q]. split; [done|]. by constructor.
    - intros k r0 _ H. by exists r0. }
  by destruct (server (trace r) q).
Qed.

Lemma dr_get_self : stable (download_rel K) get_self.
Proof. unfold get_self. stable_tac. Qed.

Lemma dr_attr {A} (f : GrowattServerData → option A) :
  stable (download_rel K) (attr f).
Proof. unfold attr. stable_tac. Qed.

Lemma dr_ensure_day k : stable (download_rel K) (ensure_day k).
Proof.
  apply dr_update. intros o. destruct (days o !! k) eqn:Hk.
  - repeat split; try done. intros k0 r0 _ H. by exists r0.
  - repeat split; try done. intros k0 r0 _ H. exists r0. simpl.
    rewrite lookup_insert_ne; [done|]. congruence.
Qed.

Lemma dr_store_sample k ts v : K k → stable (download_rel K) (store_sample k ts v).
Proof.
  intros HK. apply dr_update. intros o. repeat split; try done.
  intros k0 r0 HnK H. exists r0. simpl.
  rewrite lookup_alter_ne; [done|]. congruence.
Qed.

Lemma dr_store_todayenergy k v : stable (download_rel K) (store_todayenergy k v).
Proof.
  apply dr_update. intros o. repeat split; try done.
  intros k0 r0 _ H. simpl. destruct (decide (k = k0)) as [->|Hne].
  - rewrite lookup_alter_eq, H. simpl. by eexists.
  - rewrite lookup_alter_ne by done. by exists r0.
Qed.

End DownloadRel.

Section DownloadStable.

Variable server : Server.
Variable g : Config.
Variable K : string → Prop.

Create HintDb stable.

Local Hint Resolve dr_get_self dr_attr dr_ensure_day dr_store_todayenergy
  dr_logged_in : stable.

Lemma dr_merge_samples k data :
  K k → stable (download_rel K) (merge_samples k data).
Proof.
  intros HK. induction data as [|[ts v] data IH]; simpl; stable_tac;
    auto using dr_store_sample.
Qed.

Lemma dr_store_day d plant_detail :
  K (Date.strftime_ymd d) → stable (download_rel K) (store_day d plant_detail).
Proof.
  intros HK. unfold store_day. stable_tac; auto using dr_merge_samples with stable.
  by apply dr_update_other.
Qed.

Lemma dr_notify_progress n c : stable (download_rel K) (notify_progress n c).
Proof.
  unfold notify_progress. stable_tac; auto with stable. by apply dr_emit.
Qed.

Lemma dr_new_plant_detail pid ts date :
  (∀ d, ts = Timespan.day → date = Some d → K (Date.strftime_ymd d)) →
  stable (download_rel K) (new_plant_detail server pid ts date).
Proof.
  intros HK. unfold new_plant_detail.
  destruct ts, date as [d|]; simpl; stable_tac; simplify_eq;
    try (apply dr_session_send; simpl; first [by intros [=]|by eauto]).
Qed.

Lemma dr_day_loop n c dates :
  (∀ d, d ∈ dates → K (Date.strftime_ymd d)) →
  stable (download_rel K) (day_loop server n c dates).
Proof.
  revert c. induction dates as [|d dates IH]; intros c HK; simpl; stable_tac;
    auto using dr_notify_progress with stable.
  - apply dr_new_plant_detail. intros d' _ [= <-]. apply HK. by left.
  - apply dr_store_day, HK. by left.
  - apply IH. intros d' Hd'. apply HK. by right.
Qed.

Lemma dr_merge_month monthstr data :
  stable (download_rel K) (merge_month monthstr data).
Proof.
  induction data as [|[day v] data IH]; simpl; stable_tac; auto with stable.
Qed.

Lemma dr_month_loop months : stable (download_rel K) (month_loop server months).
Proof.
  induction months as [|[y m] months IH]; simpl; stable_tac;
    auto using dr_merge_month with stable.
  apply dr_new_plant_detail. by intros.
Qed.

Lemma dr_login u p : stable (download_rel K) (login server u p).
Proof.
  unfold login. stable_tac; auto with stable. by apply dr_session_send.
Qed.

Lemma dr_plant_list : stable (download_rel K) (plant_list server).
Proof. unfold plant_list. stable_tac. by apply dr_session_send. Qed.

Lemma dr_logout : stable (download_rel K) (logout server).
Proof.
  unfold logout. stable_tac; auto with stable. by apply dr_session_send.
Qed.

Lemma dr_with_GrowattApi {A} (body : M Run A) :
  stable (download_rel K) body → stable (download_rel K) (with_GrowattApi server body).
Proof.
  intros Hb r. unfold with_GrowattApi.
  pose proof (dr_logged_in K false r) as H0. simpl in H0.
  pose proof (Hb (set_logged_in false r)) as H1.
  destruct (body (set_logged_in false r)) as [r1 o]. simpl in H1.
  destruct (logged_in r1).
  - pose proof (dr_logout r1) as H2.
    destruct (logout server r1) as [r2 [[]|e]]; simpl in *;
      (etrans; [exact H0|]; etrans; [exact H1|exact H2]).
  - simpl. etrans; [exact H0|exact H1].
Qed.

Lemma dr_download_body start_date end_date :
  (∀ d, d ∈ daterange start_date end_date → K (Date.strftime_ymd d)) →
  stable (download_rel K) (download_body server g start_date end_date).
Proof.
  intros HK. unfold download_body. stable_tac;
    auto using dr_login, dr_plant_list, dr_day_loop, dr_month_loop;
    try (apply dr_update_other; intros o; by repeat split).
  apply dr_new_plant_detail. by intros.
Qed.

Lemma dr_downloadgrowattdata start_date end_date :
  (∀ d, d ∈ daterange start_date end_date → K (Date.strftime_ymd d)) →
  stable (download_rel K) (downloadgrowattdata server g start_date end_date).
Proof.
  intros HK r. unfold downloadgrowattdata.
  pose proof (dr_with_GrowattApi _ (dr_download_body _ _ HK) r) as H.
  destruct (with_GrowattApi _ _ r) as [r1 [[]|e]]; simpl in *; [done|].
  assert (∀ t m, download_rel K r
                   (((emit (MessageBox t m) ;;; ret false) r1).1)) as Hm.
  { intros t m. etrans; [exact H|]. apply (dr_emit K (MessageBox t m) I r1). }
  destruct e; first [apply Hm|exact H].
Qed.

End DownloadStable.

(** *** One pass of a loop *)

Section Quiet.

Lemma q_update (f : GrowattServerData → GrowattServerData) :
  (∀ o, setprogress (f o) = setprogress o
        ∧ plant_id (f o) = plant_id o
        ∧ yearproduction (f o) = yearproduction o
        ∧ yearsavailableonserver (f o) = yearsavailableonserver o
        ∧ year_complete (f o) = year_complete o
        ∧ year (f o) = year o) →
  stable quiet_rel (update f).
Proof. intros H r. destruct (H (self r)) as (?&?&?&?&?&?). by repeat split. Qed.

Lemma q_attr {A} (f : GrowattServerData → option A) : stable quiet_rel (attr f).
Proof. unfold attr. stable_tac. Qed.

Lemma q_ensure_day k : stable quiet_rel (ensure_day k).
Proof. apply q_update. intros o. by destruct (days o !! k). Qed.

Lemma q_merge_samples k data : stable quiet_rel (merge_samples k data).
Proof.
  induction data as [|[ts v] data IH]; simpl; stable_tac; [|done].
  by apply q_update.
Qed.

Lemma q_store_day d plant_detail : stable quiet_rel (store_day d plant_detail).
Proof.
  unfold store_day. stable_tac;
    auto using q_attr, q_ensure_day, q_merge_samples.
  by apply q_update.
Qed.

Lemma q_merge_month monthstr data : stable quiet_rel (merge_month monthstr data).
Proof.
  induction data as [|[day v] data IH]; simpl; stable_tac;
    auto using q_ensure_day.
  by apply q_update.
Qed.

End Quiet.

(** *** The trace of a download that succeeds *)

Section Success.

Variable server : Server.
Variable g : Config.

Lemma session_send_state q r :
  (session_send server q r).1 = set_trace (trace r ++ [Request q]) r.
Proof. unfold session_send. by destruct (server (trace r) q). Qed.

Lemma new_plant_detail_Return pid ts date r r1 b :
  new_plant_detail server pid ts date r = (r1, Return b) →
  ∃ date_str,
    Timespan.format_date ts date = Return date_str
    ∧ r1 = set_trace
             (trace r ++ [Request (newPlantDetailAPI pid (Timespan.value ts) date_str)]) r.
Proof.
  unfold new_plant_detail. intros H.
  apply bind_Return in H as (date_str & s1 & H1 & H).
  apply bind_Return in H as (resp & s2 & H2 & H).
  unfold lift in H1, H. simplify_eq. exists date_str. split; [done|].
  by rewrite <- session_send_state, H2.
Qed.

Lemma attr_Return {A} (f : GrowattServerData → option A) r r1 a :
  attr f r = (r1, Return a) → r1 = r ∧ f (self r) = Some a.
Proof.
  unfold attr, bind, get, ret, raise. destruct (f (self r)); naive_solver.
Qed.

Lemma notify_progress_Return n c r r1 c' :
  notify_progress n c r = (r1, Return c') →
  if setprogress (self r)
  then ∃ v, progress_value (c + 1) n = Return v
            ∧ r1 = set_trace (trace r ++ [Progress v]) r ∧ c' = c + 1
  else r1 = r ∧ c' = c.
Proof.
  unfold notify_progress, get_self, bind, get, ret, lift, emit, modify.
  destruct (setprogress (self r)); [|naive_solver].
  destruct (progress_value (c + 1) n) as [v|]; [|done].
  intros [= <- <-]. by exists v.
Qed.

Lemma day_loop_Return n c dates r r' pid :
  plant_id (self r) = Some pid →
  day_loop server n c dates r = (r', Return tt) →
  trace r' = trace r ++ day_events (setprogress (self r)) pid n c dates
  ∧ logged_in r' = logged_in r
  ∧ plant_id (self r') = Some pid
  ∧ yearproduction (self r') = yearproduction (self r)
  ∧ yearsavailableonserver (self r') = yearsavailableonserver (self r).
Proof.
  revert c r. induction dates as [|d dates IH]; intros c r Hpid; simpl.
  - intros [= <-]. by rewrite app_nil_r.
  - intros H.
    apply bind_Return in H as (c' & r1 & Hn & H).
    apply bind_Return in H as (pid' & r2 & Ha & H).
    apply bind_Return in H as (pd & r3 & Hd & H).
    apply bind_Return in H as ([] & r4 & Hs & H).
    apply notify_progress_Return in Hn.
    apply attr_Return in Ha as [-> Ha].
    apply new_plant_detail_Return in Hd as (ds & Hf & ->).
    simpl in Hf. injection Hf as <-.
    match type of Hs with
    | store_day _ _ ?s = _ => pose proof (q_store_day d pd s) as Hq
    end.
    rewrite Hs in Hq. destruct Hq as (Ht & Hl & Hsp & Hp & Hy & Hys & _). simpl in *.
    destruct (setprogress (self r)) eqn:Hsink.
    + destruct Hn as (v & Hv & -> & ->). simpl in *.
      rewrite Hpid in Ha. injection Ha as <-.
      apply IH in H as (Ht' & Hl' & Hp' & Hy' & Hys'); [|congruence].
      rewrite Hsp, Hsink in Ht'. rewrite Ht', Ht, <- !app_assoc. simpl.
      unfold progress_int. rewrite Hv. repeat split; congruence.
    + destruct Hn as [-> ->]. rewrite Hpid in Ha. injection Ha as <-.
      apply IH in H as (Ht' & Hl' & Hp' & Hy' & Hys'); [|congruence].
      rewrite Hsp, Hsink in Ht'. rewrite Ht', Ht, <- !app_assoc. simpl.
      repeat split; congruence.
Qed.

Lemma month_loop_Return months r r' pid :
  plant_id (self r) = Some pid →
  month_loop server months r = (r', Return tt) →
  trace r' = trace r ++ month_events pid months
  ∧ logged_in r' = logged_in r
  ∧ setprogress (self r') = setprogress (self r)
  ∧ yearproduction (self r') = yearproduction (self r)
  ∧ yearsavailableonserver (self r') = yearsavailableonserver (self r).
Proof.
  revert r. induction months as [|[y m] months IH]; intros r Hpid; simpl.
  - intros [= <-]. by rewrite app_nil_r.
  - intros H.
    apply bind_Return in H as (firstday & r1 & Hf & H).
    apply bind_Return in H as (pid' & r2 & Ha & H).
    apply bind_Return in H as (pd & r3 & Hd & H).
    apply bind_Return in H as ([] & r4 & Hs & H).
    unfold lift in Hf. destruct (Date.make y m 1) as [fd|]; [|done].
    injection Hf as <- <-.
    apply attr_Return in Ha as [-> Ha]. rewrite Hpid in Ha. injection Ha as <-.
    apply new_plant_detail_Return in Hd as (ds & Hf & ->).
    simpl in Hf. injection Hf as <-.
    match type of Hs with
    | merge_month ?p ?l ?s = _ => pose proof (q_merge_month p l s) as Hq
    end.
    rewrite Hs in Hq. destruct Hq as (Ht & Hl & Hsp & Hp & Hy & Hys & _). simpl in *.
    apply IH in H as (Ht' & Hl' & Hsp' & Hy' & Hys'); [|congruence].
    rewrite Ht', Ht, <- !app_assoc. simpl. repeat split; congruence.
Qed.

Lemma login_Return u p r r1 b :
  login server u p r = (r1, Return b) →
  ∃ h, hash_password p = Return h
       ∧ r1 = set_logged_in true (set_trace (trace r ++ [Request (LoginAPI u h)]) r).
Proof.
  unfold login. intros H.
  apply bind_Return in H as (h & s1 & H1 & H).
  apply bind_Return in H as (resp & s2 & H2 & H).
  unfold lift in H1. injection H1 as <- Hh. exists h. split; [done|].
  pose proof (session_send_state (LoginAPI u h) r) as Hs. rewrite H2 in Hs.
  simpl in Hs. subst s2.
  destruct (_back_success_response resp) as [res|e].
  - unfold bind, modify, ret in H. by injection H as <- _.
  - by destruct (isinstance e GrowattApiError).
Qed.

Lemma plant_list_Return r r1 b :
  plant_list server r = (r1, Return b) →
  r1 = set_trace (trace r ++ [Request PlantListAPI]) r.
Proof.
  unfold plant_list. intros H.
  apply bind_Return in H as (resp & s1 & H1 & H).
  unfold lift in H. injection H as <- _.
  by rewrite <- session_send_state, H1.
Qed.

Lemma update_run f r : update f r = (set_self (f (self r)) r, Return tt).
Proof. done. Qed.

Lemma download_body_Return start_date end_date r r' :
  let n := Date.diff_days end_date start_date + 1 in
  let dates := daterange start_date end_date in
  download_body server g start_date end_date r = (r', Return tt) →
  ∃ h pid,
    hash_password (password g) = Return h
    ∧ trace r' = trace r
                 ++ [Request (LoginAPI (username g) h); Request PlantListAPI;
                     Request (newPlantDetailAPI pid 4 "")]
                 ++ day_events (setprogress (self r)) pid n 0 dates
                 ++ month_events pid (months_of dates [])
    ∧ logged_in r' = true
    ∧ is_Some (yearproduction (self r'))
    ∧ ∃ info detail years,
        server (trace r ++ [Request (LoginAPI (username g) h)]) PlantListAPI
        = Response 200 info
        ∧ server (trace r ++ [Request (LoginAPI (username g) h); Request PlantListAPI])
                 (newPlantDetailAPI pid 4 "")
          = Response 200 detail
        ∧ years_on_server (back_data detail) ∅ = Return years
        ∧ yearsavailableonserver (self r') = years.
Proof.
  intros n dates. unfold download_body. intros H.
  apply bind_Return in H as (b & r1 & Hl & H).
  apply login_Return in Hl as (h & Hh & ->).
  apply bind_Return in H as (info & r2 & Hp & H).
  pose proof Hp as Hp'. apply plant_list_Return in Hp' as ->.
  rewrite bind_run with (1 := update_run _ _) in H.
  apply bind_Return in H as (pid & r3 & Hi & H).
  unfold lift in Hi. injection Hi as <- Hi.
  rewrite bind_run with (1 := update_run _ _) in H.
  rewrite bind_run with (1 := update_run _ _) in H.
  apply bind_Return in H as (detail & r4 & Hd & H).
  pose proof Hd as Hd'.
  apply new_plant_detail_Return in Hd' as (ds & Hf & ->).
  simpl in Hf. injection Hf as <-.
  apply bind_Return in H as (years & r5 & Hy & H).
  unfold lift in Hy. injection Hy as <- Hy.
  rewrite bind_run with (1 := update_run _ _) in H.
  rewrite bind_run with (1 := update_run _ _) in H.
  apply bind_Return in H as ([] & r6 & Hdl & H).
  apply (day_loop_Return _ _ _ _ _ pid) in Hdl
    as (Ht & Hlog & Hpid & Hyp & Hys); [|done].
  apply (month_loop_Return _ _ _ pid) in H
    as (Ht' & Hlog' & Hsp' & Hyp' & Hys'); [|done].
  exists h, pid. split; [done|]. simpl in *. split.
  { rewrite Ht', Ht, <- !app_assoc. done. }
  split; [congruence|]. split; [rewrite Hyp', Hyp; by eexists|].
  unfold plant_list, bind, session_send, lift in Hp. simpl in Hp.
  destruct (server _ PlantListAPI) as [|code info'] eqn:Hsrv1; [done|].
  unfold _back_success_response in Hp.
  destruct (code =? 200) eqn:Hcode; [|done]. apply Z.eqb_eq in Hcode as ->.
  simpl in Hp. destruct (back_success info') as [[]|]; try done.
  injection Hp as ->.
  unfold new_plant_detail, bind, session_send, lift in Hd. simpl in Hd.
  rewrite <- app_assoc in Hd. simpl in Hd.
  destruct (server _ (newPlantDetailAPI pid 4 "")) as [|code detail'] eqn:Hsrv2;
    [done|].
  unfold _back_success_response in Hd.
  destruct (code =? 200) eqn:Hcode; [|done]. apply Z.eqb_eq in Hcode as ->.
  simpl in Hd. destruct (back_success detail') as [[]|]; try done.
  injection Hd as ->.
  exists info, detail, years. repeat split; try done. congruence.
Qed.

End Success.

(** *** The progress value *)

Section ProgressValue.

Lemma float_of_int_prim z :
  0 <= z < 2 ^ 62 →
  Py.float_of_int z = FloatOps.Prim2SF (PrimFloat.of_uint63 (Uint63.of_Z z)).
Proof.
  intros Hz. rewrite FloatAxioms.of_uint63_spec, Uint63.of_Z_spec.
  rewrite Z.mod_small; [done|]. change Uint63.wB with (2 ^ 63). lia.
Qed.

Lemma progress_value_prim_spec k n :
  0 <= 100 * k < 2 ^ 62 → 0 < n < 2 ^ 62 →
  progress_value k n
  = match progress_value_prim k n with
    | Some v => Return v
    | None => Raise ValueError
    end.
Proof.
  intros Hk Hn. unfold progress_value, progress_value_prim.
  assert (Py.truediv (Py.Int (100 * k)) (Py.Int n)
          = Some (Py.Float (SFdiv Py.prec Py.emax (Py.float_of_int (100 * k))
                                  (Py.float_of_int n)))) as ->.
  { destruct n; [lia|done..]. }
  unfold Py.to_float. rewrite !float_of_int_prim by lia.
  change (SFdiv Py.prec Py.emax) with FloatAxioms.SF64div.
  by rewrite <- FloatAxioms.div_spec.
Qed.

Lemma progress_row_spec n k :
  0 < n → Z.of_nat k <= 366 → n <= 366 →
  progress_row n k = true →
  ∀ j, (1 <= j <= k)%nat →
       progress_value (Z.of_nat j) n = Return (Z.quot (100 * Z.of_nat j) n).
Proof.
  intros Hn0 Hk Hn.
  induction k as [|k IH]; simpl; [intros _ j; lia|].
  intros [H1 H2]%andb_true_iff j Hj.
  destruct (decide (j = S k)) as [->|Hne]; [|apply IH; [lia|done|lia]].
  rewrite progress_value_prim_spec by lia.
  destruct (progress_value_prim (Z.of_nat (S k)) n) as [v|]; [|done].
  by apply Z.eqb_eq in H1 as ->.
Qed.

Lemma progress_table_spec N :
  progress_table N = true →
  ∀ n, (1 <= n <= N)%nat → progress_row (Z.of_nat n) n = true.
Proof.
  induction N as [|N IH]; simpl; [intros _ n; lia|].
  intros [H1 H2]%andb_true_iff n Hn.
  destruct (decide (n = S N)) as [->|Hne]; [done|apply IH; [done|lia]].
Qed.

Lemma progress_table_366 : progress_table 366 = true.
Proof. vm_compute. reflexivity. Qed.

Lemma progress_value_quot k n :
  1 <= k <= n → n <= 366 →
  progress_value k n = Return (Z.quot (100 * k) n).
Proof.
  intros Hk Hn.
  pose proof (progress_table_spec 366 progress_table_366 (Z.to_nat n) ltac:(lia)) as Hr.
  rewrite Z2Nat.id in Hr by lia.
  assert (progress_value (Z.of_nat (Z.to_nat k)) n
          = Return (Z.quot (100 * Z.of_nat (Z.to_nat k)) n)) as Hv.
  { apply (progress_row_spec n (Z.to_nat n)); [lia..|done|lia]. }
  by rewrite !Z2Nat.id in Hv by lia.
Qed.

End ProgressValue.

Section SuccessTrace.

Variable server : Server.
Variable g : Config.

Lemma length_daterange start_date end_date :
  Z.of_nat (length (daterange start_date end_date))
  = Z.max 0 (Date.diff_days end_date start_date + 1).
Proof. unfold daterange. rewrite length_fmap, length_seq. lia. Qed.

Lemma downloadgrowattdata_Return start_date end_date r r' :
  let n := Date.diff_days end_date start_date + 1 in
  let dates := daterange start_date end_date in
  downloadgrowattdata server g start_date end_date r = (r', Return true) →
  ∃ h pid,
    hash_password (password g) = Return h
    ∧ trace r' = trace r
                 ++ [Request (LoginAPI (username g) h); Request PlantListAPI;
                     Request (newPlantDetailAPI pid 4 "")]
                 ++ day_events (setprogress (self r)) pid n 0 dates
                 ++ month_events pid (months_of dates [])
                 ++ [Request logout_do]
    ∧ is_Some (yearproduction (self r'))
    ∧ ∃ info detail years,
        server (trace r ++ [Request (LoginAPI (username g) h)]) PlantListAPI
        = Response 200 info
        ∧ server (trace r ++ [Request (LoginAPI (username g) h); Request PlantListAPI])
                 (newPlantDetailAPI pid 4 "")
          = Response 200 detail
        ∧ years_on_server (back_data detail) ∅ = Return years
        ∧ yearsavailableonserver (self r') = years.
Proof.
  intros n dates. unfold downloadgrowattdata, with_GrowattApi.
  destruct (download_body server g start_date end_date (set_logged_in false r))
    as [r1 [[]|e]] eqn:Hb.
  - apply download_body_Return in Hb
      as (h & pid & Hh & Ht & Hlog & Hyp & info & detail & years & H1 & H2 & H3 & H4).
    rewrite Hlog. unfold logout, bind, modify.
    pose proof (session_send_state server logout_do r1) as Hs.
    destruct (session_send server logout_do r1) as [r2 [resp|e]]; simpl in Hs.
    + intros [= <-]. subst r2. exists h, pid. simpl in *.
      split; [done|].
      split; [rewrite Ht, <- app_assoc; simpl; by rewrite <- app_assoc|].
      split; [done|]. by exists info, detail, years.
    + by destruct e.
  - destruct (logged_in r1).
    + destruct (logout server r1) as [r2 [[]|e']]; [by destruct e|by destruct e'].
    + by destruct e.
Qed.

End SuccessTrace.

(** *** The constructor, step by step *)

Section ConstructorSteps.

Variable server : Server.
Variable g : Config.
Variable now : Date.datetime.

Ltac run_steps :=
  unfold lift_run, update, get_self, datetime_, bind, get, modify, ret, raise, lift;
  unfold set_run, set_files, set_self, set_trace, set_logged_in, set_days,
    set_yearproduction, set_year_complete, set_year, set_plant_id,
    set_plant_name, set_yearsavailable, fresh_object, year_of;
  cbn.


Lemma fetch_and_dump_complete start_date end_date s :
  year_complete (self (run s)) = true →
  fetch_and_dump server g now start_date end_date s = (s, Return tt).
Proof.
  intros H. unfold fetch_and_dump. run_steps. rewrite H. simpl. by destruct s.
Qed.

Lemma fetch_and_dump_incomplete start_date end_date s :
  year_complete (self (run s)) = false →
  fetch_and_dump server g now start_date end_date s
  = match downloadgrowattdata server g start_date end_date (run s) with
    | (r1, Return true) =>
        let flag := year_complete (self r1)
                    || (Date.year start_date <? Date.year now) in
        match yearproduction (self r1) with
        | Some yp =>
            let content := (flag, yp, days (self r1)) in
            let file := picklefile g (year (self r1)) in
            ({| run := {| self := set_year_complete flag (self r1);
                          logged_in := logged_in r1;
                          trace := trace r1 ++ [Dump file content] |};
                files := <[file := content]> (files s) |}, Return tt)
        | None =>
            (set_run (set_self (set_year_complete flag (self r1)) r1) s,
             Raise AttributeError)
        end
    | (r1, Return false) => (set_run r1 s, Return tt)
    | (r1, Raise e) => (set_run r1 s, Raise e)
    end.
Proof.
  intros H. unfold fetch_and_dump. run_steps. rewrite H. simpl.
  destruct (downloadgrowattdata _ _ _ _ _) as [r1 [[]|e]]; simpl; try done.
  unfold dump_to_picklefile, attr, emit. run_steps.
  destruct r1 as [o l t]. simpl.
  destruct (Date.year start_date <? Date.year now); simpl;
    destruct (yearproduction o) eqn:Hyp; simpl;
    rewrite ?orb_true_r, ?orb_false_r; destruct o; by simplify_eq/=.
Qed.

End ConstructorSteps.

(** *** Reading a trace *)

Section Traces.




Lemma loop_events_app l1 l2 :
  loop_events (l1 ++ l2) = loop_events l1 ++ loop_events l2.
Proof. apply List.filter_app. Qed.

Lemma loop_events_day_events sink pid n c dates :
  loop_events (day_events sink pid n c dates) = day_events sink pid n c dates.
Proof.
  revert c. induction dates as [|d dates IH]; intros c; simpl; [done|].
  destruct sink; simpl; unfold loop_events in *; simpl; by rewrite IH.
Qed.

Lemma loop_events_month_events pid months :
  loop_events (month_events pid months) = [].
Proof.
  induction months as [|[y m] months IH]; simpl; [done|].
  by destruct (Date.make y m 1).
Qed.

Lemma fetch_event_no_dump K evs f c :
  Forall (fetch_event K) evs → Dump f c ∉ evs.
Proof.
  intros Hf Hin. rewrite Forall_forall in Hf. by apply (Hf _ Hin).
Qed.

Lemma max_of_Some_nonempty l k : Str.max_of l = Some k → l ≠ [].
Proof. by destruct l. Qed.

End Traces.

(** *** The claims about the fetch *)

Section Fetch.

Variable server : Server.
Variable g : Config.
Variable now : Date.datetime.

(** C3, as amended. In a download that succeeds, the progress calls and
    per-day requests it adds to the trace are exactly [day_events]: for
    the [k]-th date of the range, the sink (when there is one) is called
    once, before that date is requested, and the request follows; without
    a sink no progress call is made.  The value passed is
    [int(100 * k / n)]; for a range of at most 366 days this is the
    integer quotient of [100 * k] by [n], truncated, not rounded. *)
Theorem progress_truncated_before_each_request start_date end_date r r' :
  downloadgrowattdata server g start_date end_date r = (r', Return true) →
  let n := Date.diff_days end_date start_date + 1 in
  let dates := daterange start_date end_date in
  (∃ pid, loop_events (trace r')
          = loop_events (trace r) ++ day_events (setprogress (self r)) pid n 0 dates)
  ∧ (∀ k, 1 <= k <= n → n <= 366 → progress_int k n = Z.quot (100 * k) n).
Proof.
  intros Hd n dates. split.
  - apply downloadgrowattdata_Return in Hd as (h & pid & _ & Ht & _).
    exists pid. rewrite Ht, !loop_events_app, loop_events_day_events,
      loop_events_month_events. simpl. by rewrite app_nil_r.
  - intros k Hk Hn. unfold progress_int. by rewrite progress_value_quot.
Qed.

(** C4. After a download that succeeded (entered only with the flag
    unset), the flag is true exactly when the year of [start_date] is
    before the current year, and the snapshot with that flag is dumped to
    the file of the year: the dump is the last event and the file holds
    the flag, the production total and the days. *)
Theorem complete_iff_start_year_past start_date end_date (s : Sys) r1 :
  year_complete (self (run s)) = false →
  downloadgrowattdata server g start_date end_date (run s) = (r1, Return true) →
  ∃ yp,
    yearproduction (self r1) = Some yp
    ∧ let flag := bool_decide (Date.year start_date < Date.year now) in
      let content := (flag, yp, days (self r1)) in
      let file := picklefile g (year (self (run s))) in
      fetch_and_dump server g now start_date end_date s
      = ({| run := {| self := set_year_complete flag (self r1);
                      logged_in := logged_in r1;
                      trace := trace r1 ++ [Dump file content] |};
            files := <[file := content]> (files s) |}, Return tt).
Proof.
  intros Hc Hd.
  pose proof (dr_downloadgrowattdata server g (λ _, True) start_date end_date
                ltac:(done) (run s)) as Hrel.
  rewrite Hd in Hrel. destruct Hrel as (_ & Hc1 & Hy1 & _). simpl in *.
  pose proof Hd as Hd'.
  apply downloadgrowattdata_Return in Hd' as (_ & _ & _ & _ & [yp Hyp] & _).
  exists yp. split; [done|].
  rewrite fetch_and_dump_incomplete by done. rewrite Hd, Hyp, Hc1, Hc, Hy1. simpl.
  assert ((Date.year start_date <? Date.year now)
          = bool_decide (Date.year start_date < Date.year now)) as ->; [|done].
  case_bool_decide; [by apply Z.ltb_lt|by apply Z.ltb_ge; lia].
Qed.

End Fetch.

Section FetchRuns.

Lemma progress_truncated_before_each_request_witness :
  let res := downloadgrowattdata Sample.server_ok Sample.cfg Sample.march10
               Sample.now (run Sample.loaded_march) in
  res.2 = Return true
  ∧ (∃ pid, loop_events (trace res.1)
            = loop_events (trace (run Sample.loaded_march))
              ++ day_events (setprogress (self (run Sample.loaded_march))) pid
                   (Date.diff_days Sample.now Sample.march10 + 1) 0
                   (daterange Sample.march10 Sample.now))
  ∧ (∀ k, 1 <= k <= Date.diff_days Sample.now Sample.march10 + 1 →
          Date.diff_days Sample.now Sample.march10 + 1 <= 366 →
          progress_int k (Date.diff_days Sample.now Sample.march10 + 1)
          = Z.quot (100 * k) (Date.diff_days Sample.now Sample.march10 + 1)).
Proof.
  split; [vm_compute; reflexivity|].
  apply (progress_truncated_before_each_request Sample.server_ok Sample.cfg
           Sample.march10 Sample.now (run Sample.loaded_march)).
  vm_compute. reflexivity.
Defined.

(** C3, as stated, fails: over the three days March 10 to 12 the sink
    gets 33, 66, 100, where [round(100 * 2 / 3)] is 67; and each call
    comes before the request of its date, not after the date was
    processed. *)
Lemma progress_three_days_not_rounded :
  let res := downloadgrowattdata Sample.server_ok Sample.cfg Sample.march10
               Sample.now (run Sample.loaded_march) in
  res.2 = Return true
  ∧ Date.diff_days Sample.now Sample.march10 + 1 = 3
  ∧ loop_events (trace res.1)
    = [ Progress 33; Request (newPlantDetailAPI "P1" 1 "2020-03-10");
        Progress 66; Request (newPlantDetailAPI "P1" 1 "2020-03-11");
        Progress 100; Request (newPlantDetailAPI "P1" 1 "2020-03-12") ]
  ∧ (Py.round_of_float ∘ Py.to_float <$> Py.truediv (Py.Int (100 * 2)) (Py.Int 3))
    = Some (Some 67)
  ∧ progress_values (trace res.1) = [33; 66; 100].
Proof. repeat split; vm_compute; reflexivity. Qed.

Lemma complete_iff_start_year_past_witness :
  let res := downloadgrowattdata Sample.server_ok Sample.cfg Sample.march10
               Sample.now (run Sample.loaded_march) in
  year_complete (self (run Sample.loaded_march)) = false
  ∧ res.2 = Return true
  ∧ ∃ yp,
      yearproduction (self res.1) = Some yp
      ∧ fetch_and_dump Sample.server_ok Sample.cfg Sample.now Sample.march10
          Sample.now Sample.loaded_march
        = ({| run :=
                {| self :=
                     set_year_complete
                       (bool_decide (Date.year Sample.march10 < Date.year Sample.now))
                       (self res.1);
                   logged_in := logged_in res.1;
                   trace :=
                     trace res.1
                     ++ [Dump (picklefile Sample.cfg (year (self (run Sample.loaded_march))))
                           (bool_decide (Date.year Sample.march10 < Date.year Sample.now),
                            yp, days (self res.1))] |};
              files :=
                <[picklefile Sample.cfg (year (self (run Sample.loaded_march)))
                  := (bool_decide (Date.year Sample.march10 < Date.year Sample.now),
                      yp, days (self res.1))]> (files Sample.loaded_march) |},
           Return tt).
Proof.
  split; [reflexivity|]. split; [vm_compute; reflexivity|].
  apply (complete_iff_start_year_past Sample.server_ok Sample.cfg Sample.now
           Sample.march10 Sample.now Sample.loaded_march).
  - reflexivity.
  - vm_compute. reflexivity.
Defined.

End FetchRuns.

(** *** The claims about the constructor *)

Section Constructor_facts.

Variable server : Server.
Variable g : Config.
Variable now : Date.datetime.

Ltac run_steps :=
  unfold lift_run, update, get_self, datetime_, bind, get, modify, ret, raise, lift;
  unfold set_run, set_files, set_self, set_trace, set_logged_in, set_days,
    set_yearproduction, set_year_complete, set_year, set_plant_id,
    set_plant_name, set_yearsavailable, fresh_object, year_of;
  cbn.

Lemma init_range_found_any dir y sink content s' o :
  dir !! picklefile g y = Some content →
  init_range g now (Some y) sink (boot dir sink) = (s', o) →
  trace (run s') = [] ∧ files s' = dir
  ∧ (∀ range, o = Return range → s' = loaded dir sink y content).
Proof.
  intros Hf. destruct content as [[yc yp] ds].
  unfold init_range, load_from_picklefile, boot, loaded, loaded_object.
  destruct (y =? Date.year now) eqn:Hy; rewrite (Z.eqb_sym (Date.year now));
    rewrite ?Hy; run_steps.
  - rewrite Hf. run_steps.
    destruct (0 <? Z.of_nat (size ds)); [|destruct (Date.make y 1 1)];
      [destruct (Str.max_of _) as [k|]; [destruct (Date.strptime_ymd k)|]|..];
      run_steps; intros [= <- <-]; by repeat split.
  - destruct (Date.make y 12 31) as [d|] eqn:Hd; run_steps;
      [|intros [= <- <-]; by repeat split].
    rewrite Hf. run_steps.
    destruct (0 <? Z.of_nat (size ds)); [|destruct (Date.make y 1 1)];
      [destruct (Str.max_of _) as [k|]; [destruct (Date.strptime_ymd k)|]|..];
      run_steps; rewrite ?Hd; run_steps; intros [= <- <-]; by repeat split.
Qed.

Lemma collect_years_run (s : Sys) :
  collect_years g s
  = (set_run
       (set_self
          (set_yearsavailable
             (Some (merge_sort Z.le
                      (append_missing (yearsavailablelocally g (files s))
                         (map_to_list (yearsavailableonserver (self (run s)))).*1)))
             (self (run s)))
          (run s)) s, Return tt).
Proof. done. Qed.






End Constructor_facts.

Section Resume.

Variable server : Server.
Variable g : Config.
Variable now : Date.datetime.





End Resume.

Section Failure.

Variable server : Server.
Variable g : Config.
Variable now : Date.datetime.

Lemma downloadgrowattdata_cases start_date end_date r :
  let body := with_GrowattApi server (download_body server g start_date end_date) r in
  let res := downloadgrowattdata server g start_date end_date r in
  match body.2 with
  | Return _ => res = (body.1, Return true)
  | Raise e =>
      if isinstance e GrowattApiError || isinstance e ConnectionError
      then res = (set_trace
                    (trace body.1
                     ++ [MessageBox "Connection Error" "No connection to Growatt servers"])
                    body.1, Return false)
      else res = (body.1, Raise e)
  end.
Proof.
  intros body res. unfold res, downloadgrowattdata. fold body.
  destruct body as [r1 [[]|e]]; simpl; [done|]. by destruct e.
Qed.

(** C6, as amended. A [GrowattApiError] (a [LoginError] is one) or a
    connection error raised during the fetch does not leave
    [downloadgrowattdata]: a message box is shown and the result is
    [False]; after that result nothing is dumped, the directory and the
    completeness flag are as before and the constructor goes on.  When it
    is the login that fails, the object is exactly as it was before the
    attempt.  (After a later failure the days merged so far stay in the
    object.) *)
Theorem fetch_failure_is_caught start_date end_date (s : Sys) :
  year_complete (self (run s)) = false →
  let body := with_GrowattApi server (download_body server g start_date end_date)
                (run s) in
  let res := downloadgrowattdata server g start_date end_date (run s) in
  (∀ e, body.2 = Raise e →
        isinstance e GrowattApiError || isinstance e ConnectionError = true →
        res.2 = Return false)
  ∧ (∀ e, res.2 = Raise e →
          isinstance e GrowattApiError = false ∧ isinstance e ConnectionError = false)
  ∧ (res.2 = Return false →
     fetch_and_dump server g now start_date end_date s = (set_run res.1 s, Return tt)
     ∧ files (set_run res.1 s) = files s
     ∧ year_complete (self res.1) = false
     ∧ ∃ evs, trace res.1 = trace (run s) ++ evs
              ∧ Forall (λ e, ∀ f c, e ≠ Dump f c) evs
              ∧ last evs
                = Some (MessageBox "Connection Error" "No connection to Growatt servers"))
  ∧ (∀ h, hash_password (password g) = Return h →
          login_rejected (server (trace (run s)) (LoginAPI (username g) h)) →
          res = (set_trace
                   (trace (run s)
                    ++ [Request (LoginAPI (username g) h);
                        MessageBox "Connection Error" "No connection to Growatt servers"])
                   (set_logged_in false (run s)), Return false)
          ∧ self res.1 = self (run s)).
Proof.
  intros Hc body res.
  pose proof (downloadgrowattdata_cases start_date end_date (run s)) as Hcases.
  cbv zeta in Hcases. fold body res in Hcases.
  split; [|split; [|split]].
  - intros e He Hi. rewrite He in Hcases. rewrite Hi in Hcases. by rewrite Hcases.
  - intros e He. destruct (body.2) as [[]|e']; [by rewrite Hcases in He|].
    destruct (isinstance e' GrowattApiError || isinstance e' ConnectionError) eqn:Hi;
      rewrite Hcases in He; [done|]. simpl in He. injection He as <-.
    by apply orb_false_iff in Hi.
  - intros Hres.
    pose proof (dr_downloadgrowattdata server g (λ _, True) start_date end_date
                  ltac:(done) (run s)) as Hrel.
    fold res in Hrel. destruct Hrel as (_ & Hyc & _ & _ & (evs & Hevs & Hfe) & _).
    split; [|split; [done|split; [congruence|]]].
    { rewrite fetch_and_dump_incomplete by done. fold res.
      destruct res as [r1 o]. simpl in Hres. by rewrite Hres. }
    exists evs. split; [done|]. split.
    { eapply Forall_impl; [exact Hfe|]. by intros [] He f c. }
    destruct (body.2) as [[]|e']; [by rewrite Hcases in Hres|].
    destruct (isinstance e' GrowattApiError || isinstance e' ConnectionError);
      [|by rewrite Hcases in Hres].
    rewrite Hcases in Hevs. simpl in Hevs.
    pose proof (dr_with_GrowattApi server (λ _, True) _
                  (dr_download_body server g (λ _, True) start_date end_date
                     ltac:(done)) (run s)) as Hb.
    fold body in Hb. destruct Hb as (_ & _ & _ & _ & (evs' & Hevs' & _) & _).
    rewrite Hevs', <- app_assoc in Hevs. apply app_inv_head in Hevs as <-.
    by rewrite last_snoc.
  - intros h Hh Hrej.
    assert (body = (set_trace (trace (run s) ++ [Request (LoginAPI (username g) h)])
                      (set_logged_in false (run s)),
                    Raise (match server (trace (run s)) (LoginAPI (username g) h) with
                           | ConnectionFailed => ConnectionError
                           | Response _ _ => LoginError
                           end))) as Hbody.
    { unfold body, with_GrowattApi, download_body, login, bind, lift, session_send.
      rewrite Hh. simpl. unfold login_rejected in Hrej.
      destruct (server (trace (run s)) (LoginAPI (username g) h)) as [|code back];
        simpl; [done|].
      unfold _back_success_response in Hrej. simpl in Hrej. by rewrite Hrej. }
    rewrite Hbody in Hcases. simpl in Hcases.
    destruct (server (trace (run s)) (LoginAPI (username g) h)); simpl in Hcases;
      rewrite Hcases; simpl; by rewrite <- app_assoc.
Qed.

End Failure.

Section AvailableYears.





End AvailableYears.

Section ConstructorRuns.




Lemma fetch_failure_is_caught_witness :
  let res := downloadgrowattdata Sample.server_unreachable Sample.cfg
               Sample.march10 Sample.now (run Sample.loaded_march) in
  year_complete (self (run Sample.loaded_march)) = false
  ∧ res.2 = Return false
  ∧ fetch_and_dump Sample.server_unreachable Sample.cfg Sample.now Sample.march10
      Sample.now Sample.loaded_march
    = (set_run res.1 Sample.loaded_march, Return tt)
  ∧ self res.1 = self (run Sample.loaded_march).
Proof.
  pose proof (fetch_failure_is_caught Sample.server_unreachable Sample.cfg
                Sample.now Sample.march10 Sample.now Sample.loaded_march eq_refl)
    as (_ & _ & Hfalse & Hlogin).
  split; [reflexivity|]. split; [vm_compute; reflexivity|].
  split.
  - apply Hfalse. vm_compute. reflexivity.
  - apply (Hlogin "e2cf1817f9bb7713307949ada414cb68"); vm_compute; done.
Defined.

(** C6, as stated, fails: when the server answers 500 for March 11, the
    download reports [False] and nothing is dumped, but the answer for
    March 10 has been merged already: the DayRecord of March 10 has three
    samples where the loaded one had one, so the object is not the
    snapshot from before the attempt. *)
Lemma failed_fetch_keeps_partial_merge :
  let res := downloadgrowattdata Sample.server_down_from_11th Sample.cfg
               Sample.march10 Sample.now (run Sample.loaded_march) in
  res.2 = Return false
  ∧ fetch_and_dump Sample.server_down_from_11th Sample.cfg Sample.now
      Sample.march10 Sample.now Sample.loaded_march
    = (set_run res.1 Sample.loaded_march, Return tt)
  ∧ day_requests (trace res.1) = ["2020-03-10"; "2020-03-11"]
  ∧ (size ∘ samples <$> days (self (run Sample.loaded_march)) !! "2020-03-10")
    = Some 1%nat
  ∧ (size ∘ samples <$> days (self res.1) !! "2020-03-10") = Some 3%nat
  ∧ days (self res.1) ≠ days (self (run Sample.loaded_march)).
Proof.
  intros res.
  assert ((size ∘ samples <$> days (self (run Sample.loaded_march)) !! "2020-03-10")
          = Some 1%nat) as H1 by (vm_compute; reflexivity).
  assert ((size ∘ samples <$> days (self res.1) !! "2020-03-10") = Some 3%nat)
    as H3 by (vm_compute; reflexivity).
  split; [vm_compute; reflexivity|]. split; [vm_compute; reflexivity|].
  split; [vm_compute; reflexivity|]. split; [exact H1|]. split; [exact H3|].
  intros H. rewrite H, H1 in H3. discriminate H3.
Qed.


End ConstructorRuns.

(** ** More of the program *)

(** *** The calendar: [ord2ymd] and [ymd2ord] are inverse *)

Section Calendar.

Lemma ord2ymd_year n :
  1 <= n <= 3652059 →
  ∃ y r, 1 <= y <= 9999 ∧ 0 <= r < year_length y
         ∧ n = Date.days_before_year y + r + 1
         ∧ Date.ord2ymd n = month_day y r.
Proof.
  intros Hn. unfold Date.ord2ymd.
  set (n' := n - 1).
  set (a := n' / Date.DI400Y). set (r400 := n' mod Date.DI400Y).
  set (b := r400 / Date.DI100Y). set (r100 := r400 mod Date.DI100Y).
  set (c := r100 / Date.DI4Y). set (r4 := r100 mod Date.DI4Y).
  set (e := r4 / 365). set (r1 := r4 mod 365).
  cbv zeta.
  assert (n' = 146097 * a + r400 ∧ 0 <= r400 < 146097) as [Ha1 Ha2].
  { subst a r400. unfold Date.DI400Y. split; [apply Z.div_mod; lia|apply Z.mod_pos_bound; lia]. }
  assert (r400 = 36524 * b + r100 ∧ 0 <= r100 < 36524) as [Hb1 Hb2].
  { subst b r100. unfold Date.DI100Y. split; [apply Z.div_mod; lia|apply Z.mod_pos_bound; lia]. }
  assert (r100 = 1461 * c + r4 ∧ 0 <= r4 < 1461) as [Hc1 Hc2].
  { subst c r4. unfold Date.DI4Y. split; [apply Z.div_mod; lia|apply Z.mod_pos_bound; lia]. }
  assert (r4 = 365 * e + r1 ∧ 0 <= r1 < 365) as [He1 He2].
  { subst e r1. split; [apply Z.div_mod; lia|apply Z.mod_pos_bound; lia]. }
  assert (0 <= a) by (subst a; apply Z.div_pos; unfold Date.DI400Y; lia).
  assert (0 <= b) by (subst b; apply Z.div_pos; unfold Date.DI100Y; lia).
  assert (0 <= c) by (subst c; apply Z.div_pos; unfold Date.DI4Y; lia).
  assert (0 <= e) by (subst e; apply Z.div_pos; lia).
  assert (b <= 4) by lia. assert (c <= 24) by lia. assert (e <= 4) by lia.
  assert (n' = n - 1) as Hn' by done.
  clearbody a b c e r400 r100 r4 r1 n'.
  destruct (b =? 4) eqn:Eb; [apply Z.eqb_eq in Eb|apply Z.eqb_neq in Eb].
  - rewrite orb_true_r.
    exists (400 * a + 400), 365.
    assert (Date.is_leap (400 * a + 400) = true) as Hl.
    { unfold Date.is_leap. 
      replace (400 * a + 400) with ((a + 1) * 400) by lia.
      rewrite Z_mod_mult. 
      replace ((a + 1) * 400) with (((a + 1) * 100) * 4) by lia.
      rewrite Z_mod_mult. simpl. by rewrite orb_true_r. }
    unfold year_length. rewrite Hl.
    assert (Date.days_before_year (400 * a + 400) = 146097 * a + 146097 - 366) as Hd.
    { unfold Date.days_before_year. Z.div_mod_to_equations. lia. }
    rewrite Hd. split; [lia|]. split; [lia|]. split; [lia|].
    unfold month_day.
    assert (Date.days_before_month (400 * a + 400) (Z.shiftr (365 + 50) 5) = 335) as Hm.
    { unfold Date.days_before_month. simpl. unfold Date.days_in_month. rewrite Hl. by simpl. }
    rewrite Hm. simpl. repeat f_equal; lia.
  - rewrite orb_false_r. assert (b <= 3) by lia.
    destruct (e =? 4) eqn:Ee; [apply Z.eqb_eq in Ee|apply Z.eqb_neq in Ee].
    + exists (400 * a + 100 * b + 4 * c + 4), 365.
      assert (c <= 23) by lia.
      assert (Date.is_leap (400 * a + 100 * b + 4 * c + 4) = true) as Hl.
      { unfold Date.is_leap. apply andb_true_iff. split.
        - apply Z.eqb_eq. Z.div_mod_to_equations. lia.
        - apply orb_true_iff. left. apply negb_true_iff, Z.eqb_neq.
          Z.div_mod_to_equations. lia. }
      unfold year_length. rewrite Hl.
      assert (Date.days_before_year (400 * a + 100 * b + 4 * c + 4)
              = 146097 * a + 36524 * b + 1461 * c + 365 * 3) as Hd.
      { unfold Date.days_before_year. Z.div_mod_to_equations. lia. }
      rewrite Hd. split; [lia|]. split; [lia|]. split; [lia|].
      unfold month_day.
      assert (Date.days_before_month (400 * a + 100 * b + 4 * c + 4) (Z.shiftr (365 + 50) 5) = 335) as Hm.
      { unfold Date.days_before_month. simpl. unfold Date.days_in_month. rewrite Hl. by simpl. }
      rewrite Hm. simpl. repeat f_equal; lia.
    + assert (e <= 3) by lia.
      exists (a * 400 + 1 + b * 100 + c * 4 + e), r1.
      assert (Date.days_before_year (a * 400 + 1 + b * 100 + c * 4 + e)
              = 146097 * a + 36524 * b + 1461 * c + 365 * e) as Hd.
      { unfold Date.days_before_year. Z.div_mod_to_equations. lia. }
      rewrite Hd. split; [lia|]. split; [unfold year_length; case_match; lia|].
      split; [lia|]. done.
Qed.

Lemma days_in_month_model y m :
  Date.days_in_month y m = Date.days_in_month (model_year y) m.
Proof. unfold Date.days_in_month, model_year. by destruct (Date.is_leap y). Qed.

Lemma days_before_month_model y m :
  Date.days_before_month y m = Date.days_before_month (model_year y) m.
Proof.
  unfold Date.days_before_month. induction (Z.to_nat (m - 1)) as [|k IH]; simpl; [done|].
  by rewrite IH, days_in_month_model.
Qed.

Lemma month_day_table :
  forallb (month_day_ok 1) (seqZ 0 365) && forallb (month_day_ok 4) (seqZ 0 366) = true.
Proof. vm_compute. reflexivity. Qed.

Lemma month_day_spec y r :
  0 <= r < year_length y →
  ∃ m d, month_day y r = (y, m, d)
         ∧ 1 <= m <= 12 ∧ 1 <= d <= Date.days_in_month y m
         ∧ Date.days_before_month y m + d = r + 1.
Proof.
  intros Hr.
  assert (month_day_ok (model_year y) r = true) as Hok.
  { pose proof month_day_table as [H1 H4]%andb_true_iff.
    rewrite forallb_forall in H1, H4. unfold year_length, model_year in *.
    destruct (Date.is_leap y); [apply H4|apply H1];
      apply list_elem_of_In, elem_of_seqZ; lia. }
  unfold month_day_ok in Hok.
  assert (month_day y r
          = (y, (month_day (model_year y) r).1.2, (month_day (model_year y) r).2)) as ->.
  { unfold month_day. rewrite (days_before_month_model y), (days_in_month_model y).
    by destruct (r <? _). }
  destruct (month_day (model_year y) r) as [[y' m] d]. simpl.
  exists m, d. rewrite (days_in_month_model y), (days_before_month_model y).
  repeat (apply andb_true_iff in Hok as [Hok ?]). split; [done|]. lia.
Qed.

Lemma ord2ymd_inverse n :
  1 <= n <= 3652059 →
  ∃ y m d, Date.ord2ymd n = (y, m, d)
           ∧ Date.valid_ymd y m d = true ∧ Date.ymd2ord y m d = n.
Proof.
  intros Hn. destruct (ord2ymd_year n Hn) as (y & r & Hy & Hr & Hnr & ->).
  destruct (month_day_spec y r Hr) as (m & d & -> & Hm & Hd & Hs).
  exists y, m, d. split; [done|]. split.
  - unfold Date.valid_ymd. repeat (apply andb_true_iff; split); lia.
  - unfold Date.ymd2ord. lia.
Qed.

Lemma year_length_pos y : 365 <= year_length y <= 366.
Proof. unfold year_length. case_match; lia. Qed.

Lemma days_before_year_step y :
  Date.days_before_year (y + 1) = Date.days_before_year y + year_length y.
Proof.
  unfold Date.days_before_year, year_length, Date.is_leap.
  replace (y + 1 - 1) with y by lia.
  destruct (y mod 4 =? 0) eqn:H4; destruct (y mod 100 =? 0) eqn:H100;
    destruct (y mod 400 =? 0) eqn:H400; simpl;
    rewrite ?Z.eqb_eq, ?Z.eqb_neq in *;
    Z.div_mod_to_equations; lia.
Qed.

Lemma days_before_year_mono y y' :
  y < y' → Date.days_before_year y + year_length y <= Date.days_before_year y'.
Proof.
  intros H. replace y' with (y + 1 + Z.of_nat (Z.to_nat (y' - y - 1))) by lia.
  induction (Z.to_nat (y' - y - 1)) as [|k IH].
  - rewrite Z.add_0_r, days_before_year_step. lia.
  - replace (y + 1 + Z.of_nat (S k)) with (y + 1 + Z.of_nat k + 1) by lia.
    rewrite days_before_year_step. pose proof (year_length_pos (y + 1 + Z.of_nat k)). lia.
Qed.

Lemma days_before_month_step y m :
  1 <= m → Date.days_before_month y (m + 1)
           = Date.days_before_month y m + Date.days_in_month y m.
Proof.
  intros Hm. unfold Date.days_before_month.
  replace (Z.to_nat (m + 1 - 1)) with (S (Z.to_nat (m - 1))) by lia.
  simpl. do 2 f_equal. lia.
Qed.

Lemma days_in_month_pos y m : 28 <= Date.days_in_month y m <= 31.
Proof. unfold Date.days_in_month. repeat case_match; lia. Qed.

Lemma days_before_month_mono y m m' :
  1 <= m < m' →
  Date.days_before_month y m + Date.days_in_month y m <= Date.days_before_month y m'.
Proof.
  intros H. replace m' with (m + 1 + Z.of_nat (Z.to_nat (m' - m - 1))) by lia.
  induction (Z.to_nat (m' - m - 1)) as [|k IH].
  - rewrite Z.add_0_r, days_before_month_step by lia. lia.
  - replace (m + 1 + Z.of_nat (S k)) with (m + 1 + Z.of_nat k + 1) by lia.
    rewrite days_before_month_step by lia.
    pose proof (days_in_month_pos y (m + 1 + Z.of_nat k)). lia.
Qed.

Lemma days_before_month_13 y : Date.days_before_month y 13 = year_length y.
Proof.
  rewrite days_before_month_model. unfold model_year, year_length.
  by destruct (Date.is_leap y).
Qed.

Lemma day_of_year_bounds y m d :
  1 <= m <= 12 → 1 <= d <= Date.days_in_month y m →
  1 <= Date.days_before_month y m + d <= year_length y.
Proof.
  intros Hm Hd. split.
  - assert (0 <= Date.days_before_month y m); [|lia].
    destruct (decide (m = 1)) as [->|]; [done|].
    pose proof (days_before_month_mono y 1 m ltac:(lia)).
    pose proof (days_in_month_pos y 1).
    change (Date.days_before_month y 1) with 0 in *. lia.
  - rewrite <- days_before_month_13.
    pose proof (days_before_month_mono y m 13 ltac:(lia)). lia.
Qed.

Lemma valid_ymd_spec y m d :
  Date.valid_ymd y m d = true
  ↔ 1 <= y <= 9999 ∧ 1 <= m <= 12 ∧ 1 <= d <= Date.days_in_month y m.
Proof. unfold Date.valid_ymd. rewrite !andb_true_iff, !Z.leb_le. lia. Qed.

Lemma ymd2ord_inj y m d y' m' d' :
  Date.valid_ymd y m d = true → Date.valid_ymd y' m' d' = true →
  Date.ymd2ord y m d = Date.ymd2ord y' m' d' → (y, m, d) = (y', m', d').
Proof.
  rewrite !valid_ymd_spec. intros (Hy & Hm & Hd) (Hy' & Hm' & Hd') Heq.
  unfold Date.ymd2ord in Heq.
  pose proof (day_of_year_bounds y m d Hm Hd).
  pose proof (day_of_year_bounds y' m' d' Hm' Hd').
  assert (y = y') as <-.
  { destruct (Z.lt_trichotomy y y') as [Hlt|[?|Hlt]]; [|done|];
      apply days_before_year_mono in Hlt; lia. }
  assert (m = m') as <-.
  { destruct (Z.lt_trichotomy m m') as [Hlt|[?|Hlt]]; [|done|].
    - pose proof (days_before_month_mono y m m' ltac:(lia)). lia.
    - pose proof (days_before_month_mono y m' m ltac:(lia)). lia. }
  do 2 f_equal. lia.
Qed.

Lemma ymd2ord_bounds y m d :
  Date.valid_ymd y m d = true → 1 <= Date.ymd2ord y m d <= 3652059.
Proof.
  intros Hv. pose proof Hv as (Hy & Hm & Hd)%valid_ymd_spec.
  pose proof (day_of_year_bounds y m d Hm Hd). unfold Date.ymd2ord. split.
  - destruct (decide (y = 1)) as [->|]; [change (Date.days_before_year 1) with 0; lia|].
    pose proof (days_before_year_mono 1 y ltac:(lia)).
    change (Date.days_before_year 1) with 0 in *. pose proof (year_length_pos 1). lia.
  - destruct (decide (y = 9999)) as [->|].
    + change (Date.days_before_year 9999) with 3651694.
      change (year_length 9999) with 365 in *. lia.
    + pose proof (days_before_year_mono y 9999 ltac:(lia)).
      change (Date.days_before_year 9999) with 3651694 in *. lia.
Qed.

Lemma ord2ymd_ymd2ord y m d :
  Date.valid_ymd y m d = true → Date.ord2ymd (Date.ymd2ord y m d) = (y, m, d).
Proof.
  intros Hv.
  destruct (ord2ymd_inverse _ (ymd2ord_bounds y m d Hv)) as (y' & m' & d' & -> & Hv' & Heq).
  by apply ymd2ord_inj.
Qed.
Lemma digit_facts k :
  0 <= k < 10 →
  Str.is_digit (digit k) = true ∧ Str.digit_val (digit k) = k
  ∧ Ascii.eqb (digit k) "-" = false ∧ Ascii.eqb (digit k) "?" = false
  ∧ Str.is_space (digit k) = false.
Proof.
  intros Hk.
  assert (k = 0 ∨ k = 1 ∨ k = 2 ∨ k = 3 ∨ k = 4 ∨ k = 5 ∨ k = 6 ∨ k = 7 ∨ k = 8 ∨ k = 9)
    as Hc by lia.
  repeat (destruct Hc as [->|Hc]; [by vm_compute|]). subst. by vm_compute.
Qed.

Lemma of_int_four_digits y :
  1000 <= y <= 9999 →
  Str.of_int y
  = String (digit (y / 1000)) (String (digit (y / 100 mod 10))
      (String (digit (y / 10 mod 10)) (String (digit (y mod 10)) ""))).
Proof.
  intros Hy. unfold Str.of_int, pretty, pretty_Z.
  destruct y as [|p|p]; [lia| |lia].
  unfold pretty, pretty_positive, pretty, pretty_N.
  rewrite decide_False by done.
  set (x := N.pos p). assert (Z.of_N x = Z.pos p) as Hx by done.
  assert (1000 <= x <= 9999)%N as Hxr by lia. 
  rewrite pretty_N_go_step by lia.
  rewrite pretty_N_go_step by (apply N.div_str_pos; lia).
  rewrite pretty_N_go_step.
  2:{ apply N.div_str_pos. split; [lia|]. apply N.div_le_lower_bound; lia. }
  rewrite pretty_N_go_step.
  2:{ apply N.div_str_pos. split; [lia|]. apply N.div_le_lower_bound; [lia|].
      apply N.div_le_lower_bound; lia. }
  clearbody x.
  assert (((x `div` 10) `div` 10) = x `div` 100)%N as E2 by (by rewrite N.Div0.div_div).
  assert (((x `div` 100) `div` 10) = x `div` 1000)%N as E3 by (by rewrite N.Div0.div_div).
  assert (((x `div` 1000) `div` 10) = x `div` 10000)%N as E4 by (by rewrite N.Div0.div_div).
  rewrite E2, E3, E4.
  assert (x `div` 10000 = 0)%N as -> by (apply N.div_small; lia).
  rewrite pretty_N_go_0. unfold digit. rewrite <- Hx.
  assert (∀ k, Z.to_N ((Z.of_N x `div` Z.of_N k) `mod` 10) = ((x `div` k) `mod` 10)%N) as Hdm.
  { intros k. rewrite <- (N2Z.id ((x `div` k) `mod` 10)). f_equal.
    by rewrite N2Z.inj_mod, N2Z.inj_div. }
  assert (Z.to_N (Z.of_N x `div` 1000) = ((x `div` 1000) `mod` 10)%N) as H3.
  { rewrite N.mod_small by (apply N.Div0.div_lt_upper_bound; lia).
    rewrite <- (N2Z.id (x `div` 1000)). f_equal. by rewrite N2Z.inj_div. }
  assert (Z.to_N (Z.of_N x `mod` 10) = (x `mod` 10)%N) as H0.
  { rewrite <- (N2Z.id (x `mod` 10)). f_equal. by rewrite N2Z.inj_mod. }
  pose proof (Hdm 100%N) as H2. pose proof (Hdm 10%N) as H1.
  change (Z.of_N 100) with 100 in H2. change (Z.of_N 10) with 10 in H1.
  by rewrite H3, H0, H2, H1.
Qed.

Lemma year_text y :
  1000 <= y <= 9999 →
  let t := Str.chars (Str.rjust "0" 4 (Str.of_int y)) in
  no_dash t = true ∧ Date.parse_Y t = Some y.
Proof.
  intros Hy. rewrite of_int_four_digits by done. unfold Str.rjust. cbn -[Z.div Z.modulo digit].
  assert (0 <= y / 1000 < 10) as H3 by (split; [apply Z.div_pos|apply Z.div_lt_upper_bound]; lia).
  assert (0 <= y / 100 mod 10 < 10) as H2 by (apply Z.mod_pos_bound; lia).
  assert (0 <= y / 10 mod 10 < 10) as H1 by (apply Z.mod_pos_bound; lia).
  assert (0 <= y mod 10 < 10) as H0 by (apply Z.mod_pos_bound; lia).
  destruct (digit_facts _ H3) as (D3 & V3 & N3 & _).
  destruct (digit_facts _ H2) as (D2 & V2 & N2 & _).
  destruct (digit_facts _ H1) as (D1 & V1 & N1 & _).
  destruct (digit_facts _ H0) as (D0 & V0 & N0 & _).
  unfold no_dash, Date.parse_Y, Str.chars. simpl.
  rewrite N3, N2, N1, N0, D3, D2, D1, D0, V3, V2, V1, V0. split; [done|].
  simpl. f_equal. Z.div_mod_to_equations. lia.
Qed.

Lemma month_day_text_table :
  forallb month_text_ok (seqZ 1 12) && forallb day_text_ok (seqZ 1 31) = true.
Proof. vm_compute. reflexivity. Qed.

Lemma month_text m :
  1 <= m <= 12 →
  let t := Str.chars (Str.rjust "0" 2 (Str.of_int m)) in
  no_dash t = true ∧ Date.parse_m t = Some m.
Proof.
  intros Hm. pose proof month_day_text_table as [H _]%andb_true_iff.
  rewrite forallb_forall in H.
  specialize (H m ltac:(apply list_elem_of_In, elem_of_seqZ; lia)).
  unfold month_text_ok in H. simpl. apply andb_true_iff in H as [H1 H2].
  split; [done|]. destruct (Date.parse_m _) as [v|]; [|done].
  by apply Z.eqb_eq in H2 as ->.
Qed.

Lemma day_text d :
  1 <= d <= 31 →
  let t := Str.chars (Str.rjust "0" 2 (Str.of_int d)) in
  no_dash t = true ∧ Date.parse_d t = Some d.
Proof.
  intros Hd. pose proof month_day_text_table as [_ H]%andb_true_iff.
  rewrite forallb_forall in H.
  specialize (H d ltac:(apply list_elem_of_In, elem_of_seqZ; lia)).
  unfold day_text_ok in H. simpl. apply andb_true_iff in H as [H1 H2].
  split; [done|]. destruct (Date.parse_d _) as [v|]; [|done].
  by apply Z.eqb_eq in H2 as ->.
Qed.

Lemma split_go_skip sep cur a rest :
  forallb (λ c, negb (Ascii.eqb c sep)) a = true →
  Str.split_go sep cur (a ++ rest) = Str.split_go sep (rev a ++ cur) rest.
Proof.
  revert cur. induction a as [|c a IH]; intros cur; simpl; [done|].
  intros [Hc Ha]%andb_true_iff. apply negb_true_iff in Hc. rewrite Hc.
  rewrite IH by done. by rewrite <- app_assoc.
Qed.

Lemma split_go_three a b c :
  no_dash a = true → no_dash b = true → no_dash c = true →
  Str.split_go "-" [] (a ++ "-"%char :: b ++ "-"%char :: c) = [a; b; c].
Proof.
  intros Ha Hb Hc.
  rewrite (split_go_skip _ _ a) by done. simpl. rewrite app_nil_r, rev_involutive.
  rewrite (split_go_skip _ _ b) by done. simpl. rewrite app_nil_r, rev_involutive.
  rewrite <- (app_nil_r c), (split_go_skip _ _ c) by done. simpl.
  by rewrite !app_nil_r, rev_involutive.
Qed.

Lemma strptime_of_ymd y m d :
  1000 <= y → Date.valid_ymd y m d = true →
  Date.strptime_ymd
    (Str.rjust "0" 4 (Str.of_int y) +:+ "-" +:+
     Str.rjust "0" 2 (Str.of_int m) +:+ "-" +:+
     Str.rjust "0" 2 (Str.of_int d))
  = Date.make y m d.
Proof.
  intros Hy Hv. pose proof Hv as (Hy' & Hm & Hd)%valid_ymd_spec.
  pose proof (days_in_month_pos y m).
  destruct (year_text y ltac:(lia)) as [Ny Py].
  destruct (month_text m Hm) as [Nm Pm].
  destruct (day_text d ltac:(lia)) as [Nd Pd].
  unfold Date.strptime_ymd. rewrite !chars_app. 
  change (Str.chars "-") with ["-"%char]. simpl ([_] ++ _).
  rewrite split_go_three by done. rewrite Py, Pm, Pd. done.
Qed.

Lemma strptime_strftime d :
  1 <= Date.ordinal d <= 3652059 → 1000 <= Date.year d →
  Date.strptime_ymd (Date.strftime_ymd d)
  = Some {| Date.ordinal := Date.ordinal d; Date.microsecond_of_day := 0 |}.
Proof.
  intros Hn Hy. unfold Date.strftime_ymd, Date.year, Date.month, Date.day in *.
  destruct (ord2ymd_inverse _ Hn) as (y & m & dd & Ho & Hv & Heq).
  rewrite Ho in *. simpl in *.
  rewrite strptime_of_ymd by done. unfold Date.make. by rewrite Hv, Heq.
Qed.

End Calendar.

Section Dates.

Lemma diff_days_midnight a b :
  0 <= Date.microsecond_of_day a < Date.us_per_day →
  Date.microsecond_of_day b = 0 →
  Date.diff_days a b = Date.ordinal a - Date.ordinal b.
Proof.
  intros Ha Hb. unfold Date.diff_days. rewrite Hb, Z.sub_0_r.
  unfold Date.us_per_day in *.
  rewrite Z.add_comm, Z.div_add by lia. rewrite Z.div_small by lia. lia.
Qed.

Lemma make_Some y m d v :
  Date.make y m d = Some v →
  Date.valid_ymd y m d = true
  ∧ v = {| Date.ordinal := Date.ymd2ord y m d; Date.microsecond_of_day := 0 |}.
Proof. unfold Date.make. destruct (Date.valid_ymd y m d); naive_solver. Qed.


(** X2. For a start at midnight (as every caller passes), [daterange]
    yields every calendar day from the start date to the end date, both
    included, once each and in order, each at midnight; it is empty when
    the end date is before the start date. *)
Theorem daterange_every_day start_date end_date :
  Date.microsecond_of_day start_date = 0 →
  0 <= Date.microsecond_of_day end_date < Date.us_per_day →
  daterange start_date end_date
  = (λ n, {| Date.ordinal := n; Date.microsecond_of_day := 0 |})
      <$> seqZ (Date.ordinal start_date)
               (Date.ordinal end_date - Date.ordinal start_date + 1).
Proof.
  intros Hs He. unfold daterange. rewrite diff_days_midnight by done.
  unfold seqZ. rewrite <- list_fmap_compose. apply list_fmap_ext.
  intros i n _. unfold Date.add_days. simpl. rewrite Hs. f_equal. lia.
Qed.

Lemma daterange_every_day_witness :
  Date.microsecond_of_day Sample.march10 = 0
  ∧ daterange Sample.march10 Sample.now
    = (λ n, {| Date.ordinal := n; Date.microsecond_of_day := 0 |})
        <$> seqZ (Date.ordinal Sample.march10)
                 (Date.ordinal Sample.now - Date.ordinal Sample.march10 + 1).
Proof.
  split; [reflexivity|].
  apply (daterange_every_day Sample.march10 Sample.now); [reflexivity|].
  simpl. unfold Date.us_per_day. lia.
Defined.



Lemma rjust_four_digits fill y :
  1000 <= y <= 9999 → Str.rjust fill 4 (Str.of_int y) = Str.of_int y.
Proof. intros Hy. unfold Str.rjust. by rewrite of_int_four_digits. Qed.

Lemma year_bounds d :
  1 <= Date.ordinal d <= 3652059 → 1 <= Date.year d <= 9999.
Proof.
  intros Hn. unfold Date.year.
  destruct (ord2ymd_inverse _ Hn) as (y & m & dd & -> & Hv & _).
  apply valid_ymd_spec in Hv. simpl. lia.
Qed.

Lemma day_of_year_index d :
  1 <= Date.ordinal d <= 3652059 →
  0 <= Date.ordinal d - Date.ymd2ord (Date.year d) 1 1 < year_length (Date.year d).
Proof.
  intros Hn. unfold Date.year.
  destruct (ord2ymd_inverse _ Hn) as (y & m & dd & -> & Hv & Heq).
  apply valid_ymd_spec in Hv as (Hy & Hm & Hd). simpl.
  pose proof (day_of_year_bounds y m dd Hm Hd).
  rewrite <- Heq at 1 2. unfold Date.ymd2ord.
  change (Date.days_before_month y 1) with 0. lia.
Qed.

Lemma isodate_diff_january_first d :
  1 <= Date.ordinal d <= 3652059 → 1000 <= Date.year d →
  isodate_diff (Date.strftime_ymd d)
               (Str.rjust " " 4 (Str.of_int (Date.year d)) +:+ "-01-01")
  = Return (Date.ordinal d - Date.ymd2ord (Date.year d) 1 1).
Proof.
  intros Hn Hy. pose proof (year_bounds d Hn) as Hy'.
  unfold isodate_diff. rewrite strptime_strftime by done.
  rewrite rjust_four_digits by lia.
  rewrite <- (rjust_four_digits "0" (Date.year d)) by lia.
  change "-01-01" with ("-" +:+ Str.rjust "0" 2 (Str.of_int 1) +:+ "-"
                        +:+ Str.rjust "0" 2 (Str.of_int 1)).
  rewrite strptime_of_ymd; [|lia|apply valid_ymd_spec; cbn; lia].
  unfold Date.make.
  rewrite (proj2 (valid_ymd_spec (Date.year d) 1 1)) by (cbn; lia).
  by rewrite diff_days_midnight by (simpl; unfold Date.us_per_day; lia).
Qed.

(** X4. The column index the plot computes for a day key: for a key
    written by [strftime] from a date of a four-digit year,
    [isodate_diff] against ["{:4}-01-01"] of that year is the number of
    days since January 1, from 0 up to 364 (365 in a leap year). *)
Theorem isodate_diff_is_day_of_year d :
  1 <= Date.ordinal d <= 3652059 → 1000 <= Date.year d →
  isodate_diff (Date.strftime_ymd d)
               (Str.rjust " " 4 (Str.of_int (Date.year d)) +:+ "-01-01")
  = Return (Date.ordinal d - Date.ymd2ord (Date.year d) 1 1)
  ∧ 0 <= Date.ordinal d - Date.ymd2ord (Date.year d) 1 1
       < (if Date.is_leap (Date.year d) then 366 else 365).
Proof.
  intros Hn Hy. split; [by apply isodate_diff_january_first|].
  by apply day_of_year_index.
Qed.

Lemma isodate_diff_is_day_of_year_witness :
  isodate_diff (Date.strftime_ymd Sample.now)
               (Str.rjust " " 4 (Str.of_int (Date.year Sample.now)) +:+ "-01-01")
  = Return (Date.ordinal Sample.now - Date.ymd2ord (Date.year Sample.now) 1 1)
  ∧ 0 <= Date.ordinal Sample.now - Date.ymd2ord (Date.year Sample.now) 1 1
       < (if Date.is_leap (Date.year Sample.now) then 366 else 365).
Proof.
  apply (isodate_diff_is_day_of_year Sample.now).
  - simpl. lia.
  - assert (Date.year Sample.now = 2020) as -> by (vm_compute; reflexivity). lia.
Defined.

End Dates.
Section Template.









End Template.
Section CacheFiles.

Variable server : Server.
Variable g : Config.
Variable now : Date.datetime.

Ltac run_steps :=
  unfold lift_run, update, get_self, datetime_, bind, get, modify, ret, raise, lift;
  unfold set_run, set_files, set_self, set_trace, set_logged_in, set_days,
    set_yearproduction, set_year_complete, set_year, set_plant_id,
    set_plant_name, set_yearsavailable, fresh_object, year_of;
  cbn.

Lemma dump_to_picklefile_run year (s : Sys) yp :
  yearproduction (self (run s)) = Some yp →
  dump_to_picklefile g year s
  = (let content := (year_complete (self (run s)), yp, days (self (run s))) in
     {| run := set_trace (trace (run s) ++ [Dump (picklefile g year) content]) (run s);
        files := <[picklefile g year := content]> (files s) |}, Return true).
Proof.
  intros Hyp. unfold dump_to_picklefile, attr, emit. run_steps. rewrite Hyp. by run_steps.
Qed.

Lemma load_from_picklefile_run year (s : Sys) :
  load_from_picklefile g year s
  = match files s !! picklefile g year with
    | Some content =>
        (set_run (set_self (set_days content.2
                              (set_yearproduction (Some content.1.2)
                                 (set_year_complete content.1.1 (self (run s)))))
                           (run s)) s, Return true)
    | None => (s, Return false)
    end.
Proof.
  unfold load_from_picklefile. run_steps.
  destruct (files s !! picklefile g year) as [[[yc yp] ds]|]; [|done]. by run_steps.
Qed.

(** X5. What [dump_to_picklefile] writes for a year,
    [load_from_picklefile] reads back for that year: the completeness
    flag, the production total and the days of the dumping object replace
    those of the loading object, whose other attributes stay, and the
    result is [True]; the dump itself records one write and returns
    [True]. *)
Theorem load_reads_back_dump (y : Z) (s : Sys) yp :
  yearproduction (self (run s)) = Some yp →
  let dumped := dump_to_picklefile g y s in
  dumped.2 = Return true
  ∧ trace (run dumped.1)
    = trace (run s)
      ++ [Dump (picklefile g y)
               (year_complete (self (run s)), yp, days (self (run s)))]
  ∧ ∀ s2 : Sys,
      files s2 = files dumped.1 →
      let loaded := load_from_picklefile g y s2 in
      loaded.2 = Return true
      ∧ year_complete (self (run loaded.1)) = year_complete (self (run s))
      ∧ yearproduction (self (run loaded.1)) = Some yp
      ∧ days (self (run loaded.1)) = days (self (run s))
      ∧ year (self (run loaded.1)) = year (self (run s2))
      ∧ setprogress (self (run loaded.1)) = setprogress (self (run s2))
      ∧ trace (run loaded.1) = trace (run s2)
      ∧ files loaded.1 = files s2.
Proof.
  intros Hyp dumped. unfold dumped. rewrite (dump_to_picklefile_run y s yp Hyp).
  simpl. split; [done|]. split; [done|].
  intros s2 Hf. rewrite load_from_picklefile_run, Hf, lookup_insert_eq. by simpl.
Qed.

End CacheFiles.
Section Listing.












End Listing.

Section CompleteCache.

Variable server : Server.
Variable g : Config.
Variable now : Date.datetime.

(** A complete snapshot in the directory: the constructor reads it and
    does nothing else. *)
Lemma sync_complete_cache dir y sink content :
  dir !! picklefile g y = Some content →
  content.1.1 = true →
  let res := sync server g now dir (Some y) sink in
  trace (run res.1) = [] ∧ files res.1 = dir
  ∧ (res.2 = Return tt →
     days (self (run res.1)) = content.2
     ∧ year_complete (self (run res.1)) = true
     ∧ yearproduction (self (run res.1)) = Some content.1.2).
Proof.
  intros Hf Hc res. unfold res, sync, GrowattServerData__init__.
  destruct (init_range g now (Some y) sink (boot dir sink)) as [s1 [range|e]] eqn:Hi.
  - rewrite (bind_run _ _ _ _ _ Hi).
    apply (init_range_found_any _ _ _ _ _ _ _ _ Hf) in Hi as (_ & _ & Hl).
    rewrite (Hl range eq_refl).
    rewrite (bind_run _ _ _ _ _
               (fetch_and_dump_complete server g now range.1 range.2
                  (loaded dir sink y content) Hc)).
    rewrite collect_years_run. simpl. by repeat split.
  - pose proof (init_range_found_any _ _ _ _ _ _ _ _ Hf Hi) as (Ht & Hd & _).
    unfold bind. rewrite Hi. simpl. by repeat split.
Qed.

End CompleteCache.

Section Constructor_more.

Variable server : Server.
Variable g : Config.
Variable now : Date.datetime.

Ltac run_steps :=
  unfold lift_run, update, get_self, datetime_, bind, get, modify, ret, raise, lift;
  unfold set_run, set_files, set_self, set_trace, set_logged_in, set_days,
    set_yearproduction, set_year_complete, set_year, set_plant_id,
    set_plant_name, set_yearsavailable, fresh_object, year_of;
  cbn.

(** What [init_range] has done, however it ends. *)
Lemma init_range_state dir (year : option Z) sink s' o :
  init_range g now year sink (boot dir sink) = (s', o) →
  trace (run s') = [] ∧ files s' = dir ∧ logged_in (run s') = false
  ∧ setprogress (self (run s')) = sink.
Proof.
  unfold init_range, load_from_picklefile, boot.
  destruct year as [y|]; run_steps.
  - destruct (y =? Date.year now) eqn:Hy; rewrite (Z.eqb_sym (Date.year now));
      rewrite ?Hy; run_steps.
    + destruct (dir !! picklefile g y) as [[[yc yp] ds]|]; run_steps.
      * destruct (0 <? Z.of_nat (size ds)); [|destruct (Date.make y 1 1)];
          [destruct (Str.max_of _) as [k|]; [destruct (Date.strptime_ymd k)|]|..];
          run_steps; intros [= <- <-]; by repeat split.
      * destruct (Date.make y 1 1); run_steps; intros [= <- <-]; by repeat split.
    + destruct (Date.make y 12 31) as [d|] eqn:Hd; run_steps;
        [|intros [= <- <-]; by repeat split].
      destruct (dir !! picklefile g y) as [[[yc yp] ds]|]; run_steps.
      * destruct (0 <? Z.of_nat (size ds)); [|destruct (Date.make y 1 1)];
          [destruct (Str.max_of _) as [k|]; [destruct (Date.strptime_ymd k)|]|..];
          run_steps; rewrite ?Hd; run_steps; intros [= <- <-]; by repeat split.
      * destruct (Date.make y 1 1); run_steps; intros [= <- <-]; by repeat split.
  - destruct (dir !! picklefile g (Date.year now)) as [[[yc yp] ds]|]; run_steps.
    + destruct (0 <? Z.of_nat (size ds)); [|destruct (Date.make (Date.year now) 1 1)];
        [destruct (Str.max_of _) as [k|]; [destruct (Date.strptime_ymd k)|]|..];
        run_steps; intros [= <- <-]; by repeat split.
    + intros [= <- <-]; by repeat split.
Qed.

(** [init_range] for the default [year=None] never returns. *)
Lemma init_range_None dir sink :
  ∃ e, (init_range g now None sink (boot dir sink)).2 = Raise e
       ∧ (e = TypeError ∨ e = ValueError)
       ∧ (dir !! picklefile g (Date.year now) = None → e = TypeError).
Proof.
  unfold init_range, load_from_picklefile, boot. run_steps.
  destruct (dir !! picklefile g (Date.year now)) as [[[yc yp] ds]|]; run_steps.
  - destruct (0 <? Z.of_nat (size ds)); [|destruct (Date.make (Date.year now) 1 1)];
      [destruct (Str.max_of _) as [k|]; [destruct (Date.strptime_ymd k)|]|..];
      run_steps; eexists; (split; [done|]); (split; [tauto|done]).
  - eexists. split; [done|]. split; [tauto|done].
Qed.

(** X9. Called with the default [year=None], the constructor never
    builds an object: it raises before any request is sent or any file
    written — [TypeError] where it builds a date from the missing year,
    or, only when a cache file of the current year holds a latest key
    that is not a date, [ValueError]. *)
Theorem default_year_always_raises dir sink :
  let res := sync server g now dir None sink in
  ∃ e, res.2 = Raise e
       ∧ (e = TypeError ∨ e = ValueError)
       ∧ (dir !! picklefile g (Date.year now) = None → e = TypeError)
       ∧ trace (run res.1) = []
       ∧ files res.1 = dir.
Proof.
  intros res. destruct (init_range_None dir sink) as (e & He & Hcases & Hnone).
  destruct (init_range g now None sink (boot dir sink)) as [s' o] eqn:Hi.
  simpl in He. subst o.
  destruct (init_range_state _ _ _ _ _ Hi) as (Ht & Hf & _).
  assert (res = (s', Raise e)) as ->.
  { unfold res, sync, GrowattServerData__init__, bind. by rewrite Hi. }
  exists e. by repeat split.
Qed.

Lemma init_range_year dir y sink s' o :
  init_range g now (Some y) sink (boot dir sink) = (s', o) →
  year (self (run s')) = y.
Proof.
  unfold init_range, load_from_picklefile, boot. run_steps.
  destruct (y =? Date.year now) eqn:Hy; rewrite (Z.eqb_sym (Date.year now));
    rewrite ?Hy; run_steps.
  - destruct (dir !! picklefile g y) as [[[yc yp] ds]|]; run_steps.
    + destruct (0 <? Z.of_nat (size ds)); [|destruct (Date.make y 1 1)];
        [destruct (Str.max_of _) as [k|]; [destruct (Date.strptime_ymd k)|]|..];
        run_steps; by intros [= <- <-].
    + destruct (Date.make y 1 1); run_steps; by intros [= <- <-].
  - destruct (Date.make y 12 31) as [d|] eqn:Hd; run_steps; [|by intros [= <- <-]].
    destruct (dir !! picklefile g y) as [[[yc yp] ds]|]; run_steps.
    + destruct (0 <? Z.of_nat (size ds)); [|destruct (Date.make y 1 1)];
        [destruct (Str.max_of _) as [k|]; [destruct (Date.strptime_ymd k)|]|..];
        run_steps; rewrite ?Hd; run_steps; by intros [= <- <-].
    + destruct (Date.make y 1 1); run_steps; by intros [= <- <-].
Qed.

Lemma init_range_not_found dir y sink s' range :
  dir !! picklefile g y = None →
  init_range g now (Some y) sink (boot dir sink) = (s', Return range) →
  Date.make y 1 1 = Some range.1
  ∧ year_complete (self (run s')) = false
  ∧ days (self (run s')) = ∅
  ∧ yearproduction (self (run s')) = None.
Proof.
  intros Hf. unfold init_range, load_from_picklefile, boot. run_steps.
  destruct (y =? Date.year now) eqn:Hy; run_steps.
  - rewrite Hf. run_steps.
    destruct (Date.make y 1 1); run_steps; [|done]. by intros [= <- <-].
  - destruct (Date.make y 12 31) as [d|] eqn:Hd; run_steps; [|done].
    rewrite Hf. run_steps.
    destruct (Date.make y 1 1); run_steps; [|done]. by intros [= <- <-].
Qed.

(** The constructor either saves nothing, or saves once, at the end of a
    download that succeeded from the state [init_range] left. *)
Lemma sync_dump_cases dir y sink :
  let s1 := (sync server g now dir (Some y) sink).1 in
  ((∀ f c, Dump f c ∉ trace (run s1)) ∧ files s1 = dir)
  ∨ ∃ s' range r1 yp,
      init_range g now (Some y) sink (boot dir sink) = (s', Return range)
      ∧ year_complete (self (run s')) = false
      ∧ downloadgrowattdata server g range.1 range.2 (run s') = (r1, Return true)
      ∧ yearproduction (self r1) = Some yp
      ∧ (∀ f c, Dump f c ∉ trace r1)
      ∧ let content := (Date.year range.1 <? Date.year now, yp, days (self r1)) in
        trace (run s1) = trace r1 ++ [Dump (picklefile g y) content]
        ∧ files s1 = <[picklefile g y := content]> dir
        ∧ days (self (run s1)) = days (self r1).
Proof.
  intros s1. unfold s1, sync, GrowattServerData__init__.
  destruct (init_range g now (Some y) sink (boot dir sink)) as [s' [range|e]] eqn:Hi.
  2:{ left. unfold bind. rewrite Hi. simpl.
      destruct (init_range_state _ _ _ _ _ Hi) as (Ht & Hf & _).
      rewrite Ht. split; [|done]. intros f c. apply not_elem_of_nil. }
  rewrite (bind_run _ _ _ _ _ Hi).
  destruct (init_range_state _ _ _ _ _ Hi) as (Ht & Hf & _).
  pose proof (init_range_year _ _ _ _ _ Hi) as Hyear.
  destruct (year_complete (self (run s'))) eqn:Hc.
  { left. rewrite (bind_run _ _ _ _ _ (fetch_and_dump_complete server g now _ _ s' Hc)).
    rewrite collect_years_run. simpl. rewrite Ht. split; [|done].
    intros f c. apply not_elem_of_nil. }
  remember (bind (fetch_and_dump server g now range.1 range.2)
                 (λ _, collect_years g) s') as fin eqn:Hfin.
  unfold bind in Hfin. rewrite fetch_and_dump_incomplete in Hfin by done.
  pose proof (dr_downloadgrowattdata server g (λ _, True) range.1 range.2
                ltac:(done) (run s')) as Hrel.
  destruct (downloadgrowattdata server g range.1 range.2 (run s')) as [r1 o] eqn:Hd.
  destruct Hrel as (_ & Hc1 & Hy1 & _ & (evs & Hevs & Hfe) & _). simpl in *.
  rewrite Ht in Hevs. simpl in Hevs.
  assert (∀ f c, Dump f c ∉ trace r1) as Hnodump.
  { intros f c. rewrite Hevs. by eapply fetch_event_no_dump. }
  destruct o as [[]|e].
  - destruct (yearproduction (self r1)) as [yp|] eqn:Hyp.
    + right. exists s', range, r1, yp. rewrite collect_years_run in Hfin. subst fin.
      simpl. rewrite Hc1, Hc, Hy1, Hyear, Hf. simpl. by repeat split.
    + left. subst fin. simpl. by rewrite Hf.
  - left. rewrite collect_years_run in Hfin. subst fin. simpl. by rewrite Hf.
  - left. subst fin. simpl. by rewrite Hf.
Qed.

(** X8. A snapshot the constructor saved as complete is final: the dump
    went to the file of the year, and any later constructor call for that
    year from the resulting directory (whatever the server, the clock or
    the sink) sends no request and writes nothing, and when it returns the
    object holds the days and the total of the snapshot. *)
Theorem complete_snapshot_is_final dir y sink f yp ds :
  let first := (sync server g now dir (Some y) sink).1 in
  Dump f (true, yp, ds) ∈ trace (run first) →
  f = picklefile g y
  ∧ files first !! picklefile g y = Some (true, yp, ds)
  ∧ ∀ (server' : Server) (now' : Date.datetime) (sink' : bool),
      let again := sync server' g now' (files first) (Some y) sink' in
      trace (run again.1) = []
      ∧ files again.1 = files first
      ∧ (again.2 = Return tt →
         days (self (run again.1)) = ds
         ∧ year_complete (self (run again.1)) = true
         ∧ yearproduction (self (run again.1)) = Some yp).
Proof.
  intros first Hin.
  destruct (sync_dump_cases dir y sink) as [[Hno _]|Hyes]; [by destruct (Hno _ _ Hin)|].
  destruct Hyes as (s' & range & r1 & yp' & _ & _ & _ & _ & Hno & Ht & Hf & _).
  fold first in Ht, Hf. rewrite Ht in Hin.
  apply elem_of_app in Hin as [Hin|Hin]; [by destruct (Hno _ _ Hin)|].
  apply list_elem_of_singleton in Hin. injection Hin as Hfn Hflag Hyp Hds.
  assert (files first !! picklefile g y = Some (true, yp, ds)) as Hfile.
  { by rewrite Hf, Hflag, Hyp, Hds, lookup_insert_eq. }
  split; [done|]. split; [done|]. intros server' now' sink' again.
  exact (sync_complete_cache server' g now' (files first) y sink' _ Hfile eq_refl).
Qed.

Lemma year_of_make y m d v : Date.make y m d = Some v → Date.year v = y.
Proof.
  intros [Hv ->]%make_Some. unfold Date.year. simpl.
  by rewrite ord2ymd_ymd2ord.
Qed.

(** X10. A first sync, with no cache file of the year: whenever it
    saves, the snapshot goes to the file of the year and is marked
    complete exactly when the year is before the current year (the fetch
    then started on January 1 of that year). *)
Theorem first_sync_complete_iff_past_year dir y sink f c :
  dir !! picklefile g y = None →
  let first := (sync server g now dir (Some y) sink).1 in
  Dump f c ∈ trace (run first) →
  f = picklefile g y
  ∧ files first !! picklefile g y = Some c
  ∧ c.1.1 = bool_decide (y < Date.year now)
  ∧ c.2 = days (self (run first)).
Proof.
  intros Hnone first Hin.
  destruct (sync_dump_cases dir y sink) as [[Hno _]|Hyes]; [by destruct (Hno _ _ Hin)|].
  destruct Hyes as (s' & range & r1 & yp' & Hi & _ & _ & _ & Hno & Ht & Hf & Hds).
  fold first in Ht, Hf, Hds. rewrite Ht in Hin.
  apply elem_of_app in Hin as [Hin|Hin]; [by destruct (Hno _ _ Hin)|].
  apply list_elem_of_singleton in Hin. injection Hin as -> ->.
  destruct (init_range_not_found _ _ _ _ _ Hnone Hi) as (Hmake & _).
  rewrite (year_of_make _ _ _ _ Hmake) in *.
  split; [done|]. split; [by rewrite Hf, lookup_insert_eq|]. split; [|done].
  simpl. case_bool_decide; [by apply Z.ltb_lt|by apply Z.ltb_ge; lia].
Qed.

End Constructor_more.
Section SessionRel.

Global Instance session_rel_refl : Reflexive session_rel.
Proof. intros r. split; [done|]. exists []. by rewrite app_nil_r. Qed.

Global Instance session_rel_trans : Transitive session_rel.
Proof.
  intros r1 r2 r3 (Hl & e1 & Ht1 & Hf1) (Hl' & e2 & Ht2 & Hf2).
  split; [congruence|]. exists (e1 ++ e2).
  rewrite Ht2, Ht1, app_assoc. split; [done|]. by apply Forall_app.
Qed.

Global Instance keeps_days_refl : Reflexive keeps_days.
Proof. intros r k rec H. by exists rec. Qed.

Global Instance keeps_days_trans : Transitive keeps_days.
Proof.
  intros r1 r2 r3 H12 H23 k rec H.
  destruct (H12 k rec H) as (ra & Ha & Hda & Hsa).
  destruct (H23 k ra Ha) as (rb & Hb & Hdb & Hsb).
  exists rb. split; [done|]. split; [congruence|]. auto.
Qed.

Variable server : Server.

Lemma sr_update f : stable session_rel (update f).
Proof. intros r. split; [done|]. exists []. by rewrite app_nil_r. Qed.

Lemma sr_attr {A} (f : GrowattServerData → option A) : stable session_rel (attr f).
Proof. unfold attr. stable_tac. Qed.

Lemma sr_get_self : stable session_rel get_self.
Proof. unfold get_self. stable_tac. Qed.

Lemma sr_emit e : inner_event e → stable session_rel (emit e).
Proof. intros He r. split; [done|]. exists [e]. split; [done|]. by constructor. Qed.

Lemma sr_session_send q :
  inner_event (Request q) → stable session_rel (session_send server q).
Proof.
  intros He r. rewrite session_send_state. split; [done|].
  exists [Request q]. split; [done|]. by constructor.
Qed.

Lemma sr_plant_list : stable session_rel (plant_list server).
Proof. unfold plant_list. stable_tac. by apply sr_session_send. Qed.

Lemma sr_new_plant_detail pid ts date :
  stable session_rel (new_plant_detail server pid ts date).
Proof. unfold new_plant_detail. stable_tac. by apply sr_session_send. Qed.

Lemma sr_merge_samples k data : stable session_rel (merge_samples k data).
Proof.
  induction data as [|[ts v] data IH]; simpl; stable_tac; [|done]. apply sr_update.
Qed.

Lemma sr_store_day d detail : stable session_rel (store_day d detail).
Proof.
  unfold store_day. stable_tac;
    auto using sr_attr, sr_update, sr_merge_samples. apply sr_update.
Qed.

Lemma sr_notify_progress n c : stable session_rel (notify_progress n c).
Proof.
  unfold notify_progress. stable_tac; auto using sr_get_self. by apply sr_emit.
Qed.

Lemma sr_day_loop n c dates : stable session_rel (day_loop server n c dates).
Proof.
  revert c. induction dates as [|d dates IH]; intros c; simpl; stable_tac;
    auto using sr_notify_progress, sr_attr, sr_new_plant_detail, sr_store_day.
Qed.

Lemma sr_merge_month monthstr data : stable session_rel (merge_month monthstr data).
Proof.
  induction data as [|[day v] data IH]; simpl; stable_tac; [..|done]; apply sr_update.
Qed.

Lemma sr_month_loop months : stable session_rel (month_loop server months).
Proof.
  induction months as [|[y m] months IH]; simpl; stable_tac;
    auto using sr_attr, sr_new_plant_detail, sr_merge_month.
Qed.

End SessionRel.

Section Session.

Variable server : Server.
Variable g : Config.

Lemma login_accepted_run u p h back r :
  hash_password p = Return h →
  server (trace r) (LoginAPI u h) = Response 200 back →
  back_success back = Some true →
  login server u p r
  = (set_logged_in true (set_trace (trace r ++ [Request (LoginAPI u h)]) r), Return back).
Proof.
  intros Hh Hs Hb. unfold login, bind, lift, session_send. rewrite Hh, Hs. simpl.
  by rewrite Hb.
Qed.

(** What follows the login in the body of the [with] block keeps the
    client logged in and sends neither a login nor a logout. *)
Lemma sr_after_login start_date end_date r back r1 o :
  download_body server g start_date end_date r = (r1, o) →
  ∀ h, hash_password (password g) = Return h →
       server (trace r) (LoginAPI (username g) h) = Response 200 back →
       back_success back = Some true →
       logged_in r1 = true
       ∧ ∃ evs, trace r1 = trace r ++ Request (LoginAPI (username g) h) :: evs
                ∧ Forall inner_event evs.
Proof.
  unfold download_body.
  match goal with
  | |- context [bind (login _ _ _) ?k] => set (K := k)
  end.
  assert (∀ a, stable session_rel (K a)) as HK.
  { intros a. unfold K. stable_tac;
      auto using sr_plant_list, sr_update, sr_new_plant_detail, sr_day_loop,
        sr_month_loop; apply sr_update. }
  intros Hb h Hh Hs Hsucc. unfold bind in Hb.
  rewrite (login_accepted_run _ _ _ _ _ Hh Hs Hsucc) in Hb.
  pose proof (HK back (set_logged_in true
                         (set_trace (trace r ++ [Request (LoginAPI (username g) h)]) r)))
    as (Hl & evs & Ht & Hf).
  rewrite Hb in Hl, Ht. simpl in *. split; [done|]. exists evs.
  by rewrite Ht, <- app_assoc.
Qed.

(** X11. Every login that the server accepted is followed by a logout:
    whatever happens after an accepted login (answers that fail, replies
    that cannot be read, errors that escape), the download sends the
    logout request exactly once, after all its other requests and progress
    calls; only the message box of a caught failure can come after it. *)
Theorem accepted_login_ends_with_logout start_date end_date r h back :
  hash_password (password g) = Return h →
  server (trace r) (LoginAPI (username g) h) = Response 200 back →
  back_success back = Some true →
  let res := downloadgrowattdata server g start_date end_date r in
  ∃ evs boxes,
    trace res.1
    = trace r ++ Request (LoginAPI (username g) h) :: evs
              ++ Request logout_do :: boxes
    ∧ Forall inner_event evs
    ∧ (boxes = [] ∨ ∃ title message, boxes = [MessageBox title message]).
Proof.
  intros Hh Hs Hsucc res. unfold res, downloadgrowattdata, with_GrowattApi.
  destruct (download_body server g start_date end_date (set_logged_in false r))
    as [r1 o] eqn:Hb.
  destruct (sr_after_login _ _ _ back _ _ Hb h Hh Hs Hsucc) as (Hl & evs & Ht & Hf).
  simpl in Ht. rewrite Hl. unfold logout, bind, modify.
  pose proof (session_send_state server logout_do r1) as Hsend.
  destruct (session_send server logout_do r1) as [r2 [resp|e]]; simpl in Hsend; subst r2.
  - destruct o as [[]|e]; simpl.
    + exists evs, []. rewrite Ht, <- app_assoc. simpl. split; [done|]. split; [done|by left].
    + destruct e; simpl; exists evs;
        first [ exists []; rewrite Ht, <- app_assoc; simpl;
                split; [done|]; split; [done|by left]
              | eexists [_]; rewrite Ht, <- !app_assoc; simpl;
                split; [done|]; split; [done|right; by eexists _, _] ].
  - destruct e; simpl; exists evs;
      first [ exists []; rewrite Ht, <- app_assoc; simpl;
              split; [done|]; split; [done|by left]
            | eexists [_]; rewrite Ht, <- !app_assoc; simpl;
              split; [done|]; split; [done|right; by eexists _, _] ].
Qed.

End Session.

Section Logout.

Variable server : Server.
Variable g : Config.

(** X12. The answer to the logout request is not inspected: after a body
    that fetched everything, any HTTP answer to the logout (whatever its
    status) ends the download with [True]; only a transport failure at
    the logout turns the download into [False] with the connection
    message box, although every answer has been merged by then. *)
Theorem logout_answer_is_not_checked start_date end_date r r1 :
  download_body server g start_date end_date (set_logged_in false r)
  = (r1, Return tt) →
  downloadgrowattdata server g start_date end_date r
  = match server (trace r1) logout_do with
    | Response _ _ =>
        (set_logged_in false (set_trace (trace r1 ++ [Request logout_do]) r1),
         Return true)
    | ConnectionFailed =>
        (set_trace
           (trace r1
            ++ [Request logout_do;
                MessageBox "Connection Error" "No connection to Growatt servers"])
           r1, Return false)
    end.
Proof.
  intros Hb. unfold downloadgrowattdata, with_GrowattApi. rewrite Hb.
  apply download_body_Return in Hb as (h & pid & _ & _ & Hlog & _).
  rewrite Hlog. unfold logout, bind, modify, session_send.
  destruct (server (trace r1) logout_do); simpl; [|done].
  by rewrite <- app_assoc.
Qed.

End Logout.

Section Keeps.

Variable server : Server.
Variable g : Config.

Lemma kd_update f :
  (∀ o k rec, days o !! k = Some rec →
     ∃ rec', days (f o) !! k = Some rec'
             ∧ datestr rec' = datestr rec
             ∧ ∀ ts, is_Some (samples rec !! ts) → is_Some (samples rec' !! ts)) →
  stable keeps_days (update f).
Proof. intros H r k rec Hk. by apply H. Qed.

Lemma kd_update_other f : (∀ o, days (f o) = days o) → stable keeps_days (update f).
Proof. intros H. apply kd_update. intros o k rec Hk. exists rec. by rewrite H. Qed.

Lemma kd_modify_run (f : Run → Run) :
  (∀ r, self (f r) = self r) → stable keeps_days (modify f).
Proof. intros H r k rec Hk. simpl. rewrite H. by exists rec. Qed.

Lemma kd_attr {A} (f : GrowattServerData → option A) : stable keeps_days (attr f).
Proof. unfold attr. stable_tac. Qed.

Lemma kd_get_self : stable keeps_days get_self.
Proof. unfold get_self. stable_tac. Qed.

Lemma kd_emit e : stable keeps_days (emit e).
Proof. by apply kd_modify_run. Qed.

Lemma kd_session_send q : stable keeps_days (session_send server q).
Proof. intros r k rec Hk. rewrite session_send_state. by exists rec. Qed.

Lemma kd_ensure_day k : stable keeps_days (ensure_day k).
Proof.
  apply kd_update. intros o k0 rec Hk0. destruct (days o !! k) eqn:Hk.
  - by exists rec.
  - exists rec. simpl. rewrite lookup_insert_ne; [done|]. congruence.
Qed.

Lemma kd_store_sample k ts v : stable keeps_days (store_sample k ts v).
Proof.
  apply kd_update. intros o k0 rec Hk0. simpl.
  destruct (decide (k = k0)) as [->|Hne].
  - rewrite lookup_alter_eq, Hk0. simpl. eexists. split; [done|]. split; [done|].
    intros ts0 Hts. simpl. rewrite lookup_insert_is_Some.
    destruct (decide (ts = ts0)); [by left|by right].
  - rewrite lookup_alter_ne by done. by exists rec.
Qed.

Lemma kd_store_todayenergy k v : stable keeps_days (store_todayenergy k v).
Proof.
  apply kd_update. intros o k0 rec Hk0. simpl.
  destruct (decide (k = k0)) as [->|Hne].
  - rewrite lookup_alter_eq, Hk0. simpl. by eexists.
  - rewrite lookup_alter_ne by done. by exists rec.
Qed.

Lemma kd_merge_samples k data : stable keeps_days (merge_samples k data).
Proof.
  induction data as [|[ts v] data IH]; simpl; stable_tac;
    auto using kd_store_sample.
Qed.

Lemma kd_store_day d detail : stable keeps_days (store_day d detail).
Proof.
  unfold store_day. stable_tac;
    auto using kd_attr, kd_ensure_day, kd_merge_samples. by apply kd_update_other.
Qed.

Lemma kd_notify_progress n c : stable keeps_days (notify_progress n c).
Proof. unfold notify_progress. stable_tac; auto using kd_get_self, kd_emit. Qed.

Lemma kd_new_plant_detail pid ts date :
  stable keeps_days (new_plant_detail server pid ts date).
Proof. unfold new_plant_detail. stable_tac. apply kd_session_send. Qed.

Lemma kd_day_loop n c dates : stable keeps_days (day_loop server n c dates).
Proof.
  revert c. induction dates as [|d dates IH]; intros c; simpl; stable_tac;
    auto using kd_notify_progress, kd_attr, kd_new_plant_detail, kd_store_day.
Qed.

Lemma kd_merge_month monthstr data : stable keeps_days (merge_month monthstr data).
Proof.
  induction data as [|[day v] data IH]; simpl; stable_tac;
    auto using kd_ensure_day, kd_store_todayenergy.
Qed.

Lemma kd_month_loop months : stable keeps_days (month_loop server months).
Proof.
  induction months as [|[y m] months IH]; simpl; stable_tac;
    auto using kd_attr, kd_new_plant_detail, kd_merge_month.
Qed.

Lemma kd_login u p : stable keeps_days (login server u p).
Proof.
  unfold login. stable_tac; try apply kd_session_send; by apply kd_modify_run.
Qed.

Lemma kd_logout : stable keeps_days (logout server).
Proof. unfold logout. stable_tac; [apply kd_session_send|by apply kd_modify_run]. Qed.

Lemma kd_download_body start_date end_date :
  stable keeps_days (download_body server g start_date end_date).
Proof.
  unfold download_body. stable_tac;
    auto using kd_login, kd_day_loop, kd_month_loop, kd_new_plant_detail;
    try (by apply kd_update_other).
  unfold plant_list. stable_tac. apply kd_session_send.
Qed.

Lemma kd_downloadgrowattdata start_date end_date :
  stable keeps_days (downloadgrowattdata server g start_date end_date).
Proof.
  intros r. unfold downloadgrowattdata, with_GrowattApi.
  pose proof (kd_modify_run (set_logged_in false) ltac:(done) r) as H0. simpl in H0.
  pose proof (kd_download_body start_date end_date (set_logged_in false r)) as H1.
  destruct (download_body _ _ _ _ _) as [r1 o]. simpl in H1.
  assert (keeps_days r r1) as Hr1 by (etrans; [exact H0|exact H1]).
  assert (∀ r2 t m e, keeps_days r r2 →
            keeps_days r
              (if isinstance e GrowattApiError
               then (emit (MessageBox t m) ;;; ret false) r2
               else if isinstance e ConnectionError
                    then (emit (MessageBox t m) ;;; ret false) r2
                    else if isinstance e LoginError
                         then (emit (MessageBox "Login Error" "Username / password not correct")
                               ;;; ret false) r2
                         else (r2, Raise e)).1) as Hbox.
  { intros r2 t m e H2. by destruct e. }
  destruct (logged_in r1).
  - pose proof (kd_logout r1) as H2.
    destruct (logout server r1) as [r2 [[]|e]]; simpl in H2.
    + destruct o as [[]|e]; [by etrans|]. apply Hbox. by etrans.
    + apply Hbox. by etrans.
  - destruct o as [[]|e]; [done|]. by apply Hbox.
Qed.

(** X15. A download never forgets: whatever its outcome, every DayRecord
    the object held before is still there under its key, with the same
    date text, and holds every sample time it held before (the power at a
    time and the daily total may have been overwritten by newer answers). *)
Theorem download_keeps_days_and_sample_times start_date end_date r k rec :
  days (self r) !! k = Some rec →
  ∃ rec',
    days (self (downloadgrowattdata server g start_date end_date r).1) !! k = Some rec'
    ∧ datestr rec' = datestr rec
    ∧ ∀ ts, is_Some (samples rec !! ts) → is_Some (samples rec' !! ts).
Proof. apply (kd_downloadgrowattdata start_date end_date r). Qed.

End Keeps.

Section Coverage.

Variable server : Server.
Variable g : Config.

Lemma store_day_Return d detail r r' :
  store_day d detail r = (r', Return tt) →
  is_Some (days (self r') !! Date.strftime_ymd d).
Proof.
  unfold store_day. intros H.
  apply bind_Return in H as (name & r1 & _ & H).
  apply bind_Return in H as ([] & r2 & _ & H).
  apply bind_Return in H as ([] & r3 & He & H).
  assert (is_Some (days (self r3) !! Date.strftime_ymd d)) as [rec Hrec].
  { unfold ensure_day in He. rewrite update_run in He. injection He as <-. simpl.
    destruct (days (self r2) !! Date.strftime_ymd d) eqn:Hk; [by rewrite Hk|].
    simpl. rewrite lookup_insert_eq. by eexists. }
  pose proof (kd_merge_samples (Date.strftime_ymd d) (back_data detail) r3 _ _ Hrec)
    as (rec' & Hrec' & _).
  rewrite H in Hrec'. by eexists.
Qed.

Lemma day_loop_covers n c dates r r' :
  day_loop server n c dates r = (r', Return tt) →
  ∀ d, d ∈ dates → is_Some (days (self r') !! Date.strftime_ymd d).
Proof.
  revert c r. induction dates as [|d0 dates IH]; intros c r; simpl.
  - intros _ d Hd. by apply elem_of_nil in Hd.
  - intros H d Hd.
    apply bind_Return in H as (c' & r1 & _ & H).
    apply bind_Return in H as (pid & r2 & _ & H).
    apply bind_Return in H as (pd & r3 & _ & H).
    apply bind_Return in H as ([] & r4 & Hs & H).
    apply elem_of_cons in Hd as [->|Hd]; [|by eapply IH].
    apply store_day_Return in Hs as [rec Hrec].
    pose proof (kd_day_loop server n c' dates r4 _ _ Hrec) as (rec' & Hrec' & _).
    rewrite H in Hrec'. by eexists.
Qed.

(** X17. After a download that succeeded, every date of the range has a
    DayRecord: the key [strftime("%Y-%m-%d")] of each day from the start
    date to the end date is in [days]. *)
Theorem successful_download_covers_range start_date end_date r r' d :
  downloadgrowattdata server g start_date end_date r = (r', Return true) →
  d ∈ daterange start_date end_date →
  is_Some (days (self r') !! Date.strftime_ymd d).
Proof.
  unfold downloadgrowattdata, with_GrowattApi. intros H Hd.
  destruct (download_body server g start_date end_date (set_logged_in false r))
    as [r1 [[]|e]] eqn:Hb.
  2:{ destruct (logged_in r1); [destruct (logout server r1) as [r2 [[]|e']]|];
        first [by destruct e|by destruct e']. }
  assert (is_Some (days (self r1) !! Date.strftime_ymd d)) as [rec Hrec].
  { unfold download_body in Hb.
    do 10 (apply bind_Return in Hb as (? & ? & _ & Hb)).
    apply bind_Return in Hb as ([] & r6 & Hdl & Hb).
    apply day_loop_covers with (d := d) in Hdl as [rec Hrec]; [|done].
    match type of Hb with
    | month_loop _ ?ms _ = _ =>
        pose proof (kd_month_loop server ms r6 _ _ Hrec) as (rec' & Hrec' & _)
    end.
    rewrite Hb in Hrec'. by eexists. }
  destruct (logged_in r1).
  - pose proof (kd_logout server r1 _ _ Hrec) as (rec' & Hrec' & _).
    destruct (logout server r1) as [r2 [[]|e']]; [|by destruct e'].
    injection H as <-. by eexists.
  - injection H as <-. by eexists.
Qed.

End Coverage.

Section Totals.

Variable server : Server.
Variable g : Config.




End Totals.

Section Months.



Lemma string_app_inv_head (p a b : string) : p +:+ a = p +:+ b → a = b.
Proof. induction p as [|c p IH]; simpl; [done|]. intros [= H]. by apply IH. Qed.

Lemma merge_month_run monthstr data r :
  ∃ r', merge_month monthstr data r = (r', Return tt)
        ∧ trace r' = trace r ∧ logged_in r' = logged_in r
        ∧ (∀ k, (∀ day, day ∈ data.*1 → k ≠ monthstr +:+ day) →
                days (self r') !! k = days (self r) !! k)
        ∧ (NoDup data.*1 →
           ∀ day v, (day, v) ∈ data →
             ∃ rec, days (self r') !! (monthstr +:+ day) = Some rec
                    ∧ todayenergy rec = Py.Float v
                    ∧ samples rec
                      = match days (self r) !! (monthstr +:+ day) with
                        | Some old => samples old
                        | None => ∅
                        end
                    ∧ datestr rec
                      = match days (self r) !! (monthstr +:+ day) with
                        | Some old => datestr old
                        | None => monthstr +:+ day
                        end).
Proof.
  revert r. induction data as [|[day0 v0] data IH]; intros r; simpl.
  - exists r. repeat split; try done. intros _ day v Hin. by apply elem_of_nil in Hin.
  - unfold bind at 1 2. unfold ensure_day at 1. rewrite update_run.
    unfold store_todayenergy at 1. rewrite update_run.
    match goal with
    | |- context [merge_month monthstr data ?s] =>
        destruct (IH s) as (r' & Hrun & Ht & Hl & Hother & Hset); set (s0 := s) in *
    end.
    exists r'. split; [done|]. split; [done|]. split; [done|].
    assert (∀ k, k ≠ monthstr +:+ day0 →
              days (self s0) !! k = days (self r) !! k) as Hs0.
    { intros k Hk. unfold s0. simpl.
      rewrite lookup_alter_ne by done.
      destruct (days (self r) !! (monthstr +:+ day0)); [done|].
      simpl. by rewrite lookup_insert_ne. }
    split.
    + intros k Hk. rewrite Hother.
      * apply Hs0. apply Hk. by left.
      * intros day Hday. apply Hk. by right.
    + intros Hnd day v Hin. apply NoDup_cons in Hnd as [Hnotin Hnd].
      apply elem_of_cons in Hin as [[= -> ->]|Hin].
      * rewrite Hother.
        2:{ intros day Hday Heq. apply string_app_inv_head in Heq as ->. done. }
        unfold s0. simpl. rewrite lookup_alter_eq.
        destruct (days (self r) !! (monthstr +:+ day0)) as [old|] eqn:Hold; simpl.
        -- rewrite Hold. simpl. by eexists.
        -- rewrite lookup_insert_eq. simpl. by eexists.
      * destruct (Hset Hnd day v Hin) as (rec & Hrec & Hte & Hsm & Hds).
        exists rec. split; [done|]. split; [done|].
        assert (monthstr +:+ day ≠ monthstr +:+ day0) as Hne.
        { intros Heq. apply string_app_inv_head in Heq as ->.
          apply Hnotin. apply list_elem_of_fmap. by exists (day0, v). }
        rewrite Hs0 in Hsm, Hds by done. done.
Qed.

(** X14. Merging the daily totals of a month answer never fails and
    touches nothing but [days]: each day of the answer gets the answer's
    value as its total under the key made of the month prefix and the day
    text; a day that had no DayRecord gets one without samples, a day that
    had one keeps its samples; and no other key changes. *)
Theorem merge_month_sets_daily_totals monthstr data r :
  NoDup data.*1 →
  let res := merge_month monthstr data r in
  res.2 = Return tt
  ∧ trace res.1 = trace r
  ∧ (∀ day v, (day, v) ∈ data →
       ∃ rec, days (self res.1) !! (monthstr +:+ day) = Some rec
              ∧ todayenergy rec = Py.Float v
              ∧ samples rec
                = match days (self r) !! (monthstr +:+ day) with
                  | Some old => samples old
                  | None => ∅
                  end)
  ∧ (∀ k, (∀ day, day ∈ data.*1 → k ≠ monthstr +:+ day) →
          days (self res.1) !! k = days (self r) !! k).
Proof.
  intros Hnd res. unfold res.
  destruct (merge_month_run monthstr data r) as (r' & -> & Ht & _ & Hother & Hset).
  simpl. split; [done|]. split; [done|]. split; [|done].
  intros day v Hin. destruct (Hset Hnd day v Hin) as (rec & ? & ? & ? & _).
  by exists rec.
Qed.

End Months.

(** *** Concrete runs *)

Section MoreRuns.

Lemma pair_of_snd {A B} (p : A * B) (b : B) : p.2 = b → p = (p.1, b).
Proof. destruct p as [a b']. simpl. by intros ->. Qed.

Lemma load_reads_back_dump_witness :
  let dumped := dump_to_picklefile Sample.cfg 2020 Sample.loaded_march in
  let loaded := load_from_picklefile Sample.cfg 2020
                  (boot (files dumped.1) false) in
  yearproduction (self (run Sample.loaded_march)) = Some (Py.float_of_int 50)
  ∧ dumped.2 = Return true
  ∧ loaded.2 = Return true
  ∧ days (self (run loaded.1)) = Sample.march_days
  ∧ yearproduction (self (run loaded.1)) = Some (Py.float_of_int 50).
Proof.
  intros dumped loaded. split; [reflexivity|].
  destruct (load_reads_back_dump Sample.cfg 2020 Sample.loaded_march
              (Py.float_of_int 50) eq_refl) as (Hd & _ & Hl).
  split; [exact Hd|].
  destruct (Hl (boot (files dumped.1) false) eq_refl) as (H1 & _ & H3 & H4 & _).
  split; [exact H1|]. split; [exact H4|exact H3].
Defined.


Lemma complete_snapshot_is_final_witness :
  let first := (sync Sample.server_ok Sample.cfg Sample.now Sample.dir_2019_open
                  (Some 2019) true).1 in
  ∃ yp ds,
    last (trace (run first)) = Some (Dump "solarviewdata_2019.pkl" (true, yp, ds))
    ∧ files first !! picklefile Sample.cfg 2019 = Some (true, yp, ds)
    ∧ trace (run (sync Sample.server_unreachable Sample.cfg Sample.now
                    (files first) (Some 2019) false).1) = [].
Proof.
  intros first.
  assert (∃ yp ds, last (trace (run first))
                   = Some (Dump "solarviewdata_2019.pkl" (true, yp, ds)))
    as (yp & ds & Hlast) by (eexists _, _; vm_compute; reflexivity).
  exists yp, ds. split; [exact Hlast|].
  destruct (complete_snapshot_is_final Sample.server_ok Sample.cfg Sample.now
              Sample.dir_2019_open 2019 true "solarviewdata_2019.pkl" yp ds
              (last_Some_elem_of _ _ Hlast)) as (_ & Hfile & Hagain).
  split; [exact Hfile|].
  apply (Hagain Sample.server_unreachable Sample.now false).
Defined.

Lemma first_sync_complete_iff_past_year_witness :
  let first := (sync Sample.server_ok Sample.cfg Sample.jan2 ∅ (Some 2020) false).1 in
  ∃ c,
    last (trace (run first)) = Some (Dump "solarviewdata_2020.pkl" c)
    ∧ files first !! picklefile Sample.cfg 2020 = Some c
    ∧ c.1.1 = bool_decide (2020 < Date.year Sample.jan2)
    ∧ c.2 = days (self (run first)).
Proof.
  intros first.
  assert (∃ c, last (trace (run first)) = Some (Dump "solarviewdata_2020.pkl" c))
    as (c & Hlast) by (eexists; vm_compute; reflexivity).
  exists c. split; [exact Hlast|].
  apply (first_sync_complete_iff_past_year Sample.server_ok Sample.cfg Sample.jan2
           ∅ 2020 false "solarviewdata_2020.pkl" c (lookup_empty _)
           (last_Some_elem_of _ _ Hlast)).
Defined.

Lemma accepted_login_ends_with_logout_witness :
  let res := downloadgrowattdata Sample.server_ok Sample.cfg Sample.march10
               Sample.now (run Sample.loaded_march) in
  hash_password (password Sample.cfg) = Return "e2cf1817f9bb7713307949ada414cb68"
  ∧ ∃ evs boxes,
      trace res.1
      = trace (run Sample.loaded_march)
        ++ Request (LoginAPI (username Sample.cfg) "e2cf1817f9bb7713307949ada414cb68")
           :: evs ++ Request logout_do :: boxes
      ∧ Forall inner_event evs
      ∧ (boxes = [] ∨ ∃ title message, boxes = [MessageBox title message]).
Proof.
  split; [vm_compute; reflexivity|].
  apply (accepted_login_ends_with_logout Sample.server_ok Sample.cfg Sample.march10
           Sample.now (run Sample.loaded_march) "e2cf1817f9bb7713307949ada414cb68"
           {| back_success := Some true; back_plantIds := ["P1"];
              back_plantName := ""; back_data := [] |});
    [vm_compute; reflexivity|reflexivity|reflexivity].
Defined.

Lemma logout_answer_is_not_checked_witness :
  let body := download_body Sample.server_no_logout Sample.cfg Sample.march10
                Sample.now (set_logged_in false (run Sample.loaded_march)) in
  body.2 = Return tt
  ∧ Sample.server_no_logout (trace body.1) logout_do = ConnectionFailed
  ∧ downloadgrowattdata Sample.server_no_logout Sample.cfg Sample.march10
      Sample.now (run Sample.loaded_march)
    = (set_trace
         (trace body.1
          ++ [Request logout_do;
              MessageBox "Connection Error" "No connection to Growatt servers"])
         body.1, Return false).
Proof.
  intros body.
  assert (body.2 = Return tt) as Hb by (vm_compute; reflexivity).
  split; [exact Hb|]. split; [reflexivity|].
  apply (logout_answer_is_not_checked Sample.server_no_logout Sample.cfg
           Sample.march10 Sample.now (run Sample.loaded_march) body.1
           (pair_of_snd body _ Hb)).
Defined.

Lemma merge_month_sets_daily_totals_witness :
  let res := merge_month "2020-03-" Sample.month_totals (run Sample.loaded_march) in
  NoDup Sample.month_totals.*1
  ∧ res.2 = Return tt
  ∧ ∃ rec, days (self res.1) !! ("2020-03-" +:+ "11") = Some rec
           ∧ todayenergy rec = Py.Float (Py.float_of_int 9)
           ∧ samples rec
             = match days (self (run Sample.loaded_march)) !! ("2020-03-" +:+ "11") with
               | Some old => samples old
               | None => ∅
               end.
Proof.
  intros res.
  assert (NoDup Sample.month_totals.*1) as Hnd.
  { apply NoDup_cons. split; [|apply NoDup_cons; split; [|apply NoDup_singleton]].
    - intros [[=]|[[=]|[]%elem_of_nil]%elem_of_cons]%elem_of_cons.
    - intros [[=]|[]%elem_of_nil]%elem_of_cons. }
  split; [exact Hnd|].
  destruct (merge_month_sets_daily_totals "2020-03-" Sample.month_totals
              (run Sample.loaded_march) Hnd) as (Hr & _ & Hset & _).
  split; [exact Hr|].
  apply (Hset "11" (Py.float_of_int 9)). do 2 right. left.
Defined.

Lemma download_keeps_days_and_sample_times_witness :
  days (self (run Sample.loaded_march)) !! "2020-03-10"
  = Some (Sample.cached_day "2020-03-10")
  ∧ ∃ rec',
      days (self (downloadgrowattdata Sample.server_ok Sample.cfg Sample.march10
                    Sample.now (run Sample.loaded_march)).1) !! "2020-03-10"
      = Some rec'
      ∧ datestr rec' = datestr (Sample.cached_day "2020-03-10")
      ∧ ∀ ts, is_Some (samples (Sample.cached_day "2020-03-10") !! ts)
              → is_Some (samples rec' !! ts).
Proof.
  assert (days (self (run Sample.loaded_march)) !! "2020-03-10"
          = Some (Sample.cached_day "2020-03-10")) as H
    by (vm_compute; reflexivity).
  split; [exact H|].
  apply (download_keeps_days_and_sample_times Sample.server_ok Sample.cfg
           Sample.march10 Sample.now (run Sample.loaded_march) "2020-03-10"
           (Sample.cached_day "2020-03-10") H).
Defined.

Lemma successful_download_covers_range_witness :
  let res := downloadgrowattdata Sample.server_ok Sample.cfg Sample.march10
               Sample.now (run Sample.loaded_march) in
  res.2 = Return true
  ∧ Date.add_days Sample.march10 2 ∈ daterange Sample.march10 Sample.now
  ∧ is_Some (days (self res.1) !! Date.strftime_ymd (Date.add_days Sample.march10 2)).
Proof.
  intros res.
  assert (res.2 = Return true) as Hr by (vm_compute; reflexivity).
  assert (Date.add_days Sample.march10 2 ∈ daterange Sample.march10 Sample.now) as Hd.
  { apply list_elem_of_In. vm_compute. tauto. }
  split; [exact Hr|]. split; [exact Hd|].
  apply (successful_download_covers_range Sample.server_ok Sample.cfg Sample.march10
           Sample.now (run Sample.loaded_march) res.1 _ (pair_of_snd res _ Hr) Hd).
Defined.


End MoreRuns.
